(** * chunk.py: Docling chunks serialised as JSON Lines

    A shallow embedding of [embabel-agent-docs/chunk.py].  The script
    converts a PDF with Docling, chunks the document with
    [HierarchicalChunker], and writes one JSON object per chunk to
    [./target/index_chunks.jsonl], printing a progress line per chunk and
    a summary line at the end.

    Python [str] values are sequences of Unicode code points, modelled as
    lists of [N]; the values handed to [json.dumps] are modelled by
    [pyval]; the converter, the chunker and the faults of the file system
    are parameters of the script. *)

From Stdlib Require Import Ascii String NArith ZArith.
From Stdlib Require Import Decimal DecimalFacts DecimalNat DecimalN DecimalZ.
From stdpp Require Import base tactics option list numbers.

Local Open Scope N_scope.

(** ** Python strings *)

(** A Python [str]: a sequence of code points. [len(s)] is [length s]. *)
Definition pystr : Type := list N.

(** An ASCII literal of the source, as a Python string. *)
Definition lit (s : string) : pystr := map N_of_ascii (list_ascii_of_string s).

Definition QUOTE : N := 34.      (* the double quote *)
Definition BACKSLASH : N := 92.
Definition NEWLINE : N := 10.
Definition CHECK_MARK : N := 10003.  (* U+2713, the first character of the summary line *)

(** ** Python values built by the script and accepted by [json.dumps] *)

(** [None], [bool], [int], [str], [list] and [dict] with [str] keys (in
    insertion order).  The script builds no floats, so they are left out. *)
Unset Elimination Schemes.
Inductive pyval : Type :=
  | PyNone
  | PyBool (b : bool)
  | PyInt (z : Z)
  | PyStr (s : pystr)
  | PyList (l : list pyval)
  | PyDict (d : list (pystr * pyval)).
Set Elimination Schemes.

(** ** [str(int)]: decimal digits *)

Fixpoint uint_chars (u : uint) : pystr :=
  match u with
  | Nil => []
  | D0 u => 48 :: uint_chars u
  | D1 u => 49 :: uint_chars u
  | D2 u => 50 :: uint_chars u
  | D3 u => 51 :: uint_chars u
  | D4 u => 52 :: uint_chars u
  | D5 u => 53 :: uint_chars u
  | D6 u => 54 :: uint_chars u
  | D7 u => 55 :: uint_chars u
  | D8 u => 56 :: uint_chars u
  | D9 u => 57 :: uint_chars u
  end.

(** [str(n)] for a natural number such as a list index or a [len]. *)
Definition str_nat (n : nat) : pystr := uint_chars (Nat.to_uint n).

(** [int.__repr__], used by [json.dumps] for [int] values. *)
Definition repr_int (z : Z) : pystr :=
  match Z.to_int z with
  | Pos u => uint_chars u
  | Neg u => 45 :: uint_chars u
  end.

(** ** [json.dumps(obj, ensure_ascii=False)] *)

(** A lower-case hexadecimal digit, as in ['\\u{0:04x}'.format(i)]. *)
Definition hex_digit (d : N) : N := if d <? 10 then 48 + d else 87 + d.

(** [ESCAPE_DCT] of [json.encoder] restricted to the pattern [ESCAPE]
    (the one used when [ensure_ascii] is false): the quote, the backslash
    and the control characters below 0x20 are replaced, every other code
    point is copied. *)
Definition escape_char (c : N) : pystr :=
  if c =? QUOTE then [BACKSLASH; QUOTE]
  else if c =? BACKSLASH then [BACKSLASH; BACKSLASH]
  else if c =? 8 then [BACKSLASH; 98]        (* \b *)
  else if c =? 12 then [BACKSLASH; 102]      (* \f *)
  else if c =? 10 then [BACKSLASH; 110]      (* \n *)
  else if c =? 13 then [BACKSLASH; 114]      (* \r *)
  else if c =? 9 then [BACKSLASH; 116]       (* \t *)
  else if c <? 32 then [BACKSLASH; 117; 48; 48; hex_digit (c / 16); hex_digit (c mod 16)]
  else [c].

(** [py_encode_basestring]. *)
Definition encode_basestring (s : pystr) : pystr :=
  QUOTE :: flat_map escape_char s ++ [QUOTE].

(** [', '.join(parts)]. *)
Fixpoint join_comma (parts : list pystr) : pystr :=
  match parts with
  | [] => []
  | [p] => p
  | p :: rest => p ++ lit ", " ++ join_comma rest
  end.

(** The encoder with the default separators [(', ', ': ')] and no indent. *)
Fixpoint json_dumps (v : pyval) : pystr :=
  match v with
  | PyNone => lit "null"
  | PyBool true => lit "true"
  | PyBool false => lit "false"
  | PyInt z => repr_int z
  | PyStr s => encode_basestring s
  | PyList l => lit "[" ++ join_comma (map json_dumps l) ++ lit "]"
  | PyDict d =>
      lit "{" ++
      join_comma (map (fun kv => encode_basestring (fst kv) ++ lit ": " ++ json_dumps (snd kv)) d)
      ++ lit "}"
  end.

(** ** Reading the output back: a JSON decoder

    The properties below speak of output lines that parse as JSON.  The decoder
    below follows [json.decoder] ([py_scanstring], [JSONObject],
    [JSONArray], the number pattern of [json.scanner]) for the JSON of
    RFC 8259 without fractions and exponents: a text it accepts is valid
    JSON, and the value it returns is the one [json.loads] builds, with an
    object kept as its list of members in textual order. *)

Definition is_ws (c : N) : bool :=
  (c =? 32) || (c =? 9) || (c =? 10) || (c =? 13).

Fixpoint skip_ws (s : pystr) : pystr :=
  match s with
  | c :: s' => if is_ws c then skip_ws s' else s
  | [] => []
  end.

Definition is_digit (c : N) : bool := (48 <=? c) && (c <=? 57).

(** The value of a hexadecimal digit, of either case. *)
Definition hex_val (c : N) : option N :=
  if is_digit c then Some (c - 48)
  else if (97 <=? c) && (c <=? 102) then Some (c - 87)
  else if (65 <=? c) && (c <=? 70) then Some (c - 55)
  else None.

Definition hex4 (h1 h2 h3 h4 : N) : option N :=
  match hex_val h1, hex_val h2, hex_val h3, hex_val h4 with
  | Some a, Some b, Some c, Some d => Some (((a * 16 + b) * 16 + c) * 16 + d)
  | _, _, _, _ => None
  end.

(** [BACKSLASH] table of [json.decoder]. *)
Definition unescape (e : N) : option N :=
  if e =? QUOTE then Some QUOTE
  else if e =? BACKSLASH then Some BACKSLASH
  else if e =? 47 then Some 47
  else if e =? 98 then Some 8
  else if e =? 102 then Some 12
  else if e =? 110 then Some 10
  else if e =? 114 then Some 13
  else if e =? 116 then Some 9
  else None.

Definition is_high_surrogate (c : N) : bool := (55296 <=? c) && (c <=? 56319).
Definition is_low_surrogate (c : N) : bool := (56320 <=? c) && (c <=? 57343).

(** A [\uXXXX] low surrogate at the head of [s], if there is one. *)
Definition low_surrogate_escape (s : pystr) : option (N * pystr) :=
  match s with
  | b :: u :: g1 :: g2 :: g3 :: g4 :: s' =>
      if (b =? BACKSLASH) && (u =? 117) then
        match hex4 g1 g2 g3 g4 with
        | Some lo => if is_low_surrogate lo then Some (lo, s') else None
        | None => None
        end
      else None
  | _ => None
  end.

(** [py_scanstring] in strict mode, entered after the opening quote:
    the decoded string and the text after the closing quote. *)
Fixpoint scanstring (s : pystr) : option (pystr * pystr) :=
  match s with
  | [] => None
  | c :: s1 =>
      if c =? QUOTE then Some ([], s1)
      else if c =? BACKSLASH then
        match s1 with
        | [] => None
        | e :: s2 =>
            if e =? 117 then
              match s2 with
              | h1 :: h2 :: h3 :: h4 :: s3 =>
                  match hex4 h1 h2 h3 h4 with
                  | None => None
                  | Some uni =>
                      match (if is_high_surrogate uni then low_surrogate_escape s3 else None) with
                      | Some (lo, _) =>
                          match s3 with
                          | _ :: _ :: _ :: _ :: _ :: _ :: s4 =>
                              match scanstring s4 with
                              | Some (str, rest) =>
                                  Some ((65536 + (uni - 55296) * 1024 + (lo - 56320)) :: str, rest)
                              | None => None
                              end
                          | _ => None
                          end
                      | None =>
                          match scanstring s3 with
                          | Some (str, rest) => Some (uni :: str, rest)
                          | None => None
                          end
                      end
                  end
              | _ => None
              end
            else
              match unescape e with
              | None => None
              | Some ch =>
                  match scanstring s2 with
                  | Some (str, rest) => Some (ch :: str, rest)
                  | None => None
                  end
              end
        end
      else if c <? 32 then None
      else
        match scanstring s1 with
        | Some (str, rest) => Some (c :: str, rest)
        | None => None
        end
  end.

Definition digit_cons (c : N) (u : uint) : uint :=
  if c =? 48 then D0 u else if c =? 49 then D1 u else if c =? 50 then D2 u
  else if c =? 51 then D3 u else if c =? 52 then D4 u else if c =? 53 then D5 u
  else if c =? 54 then D6 u else if c =? 55 then D7 u else if c =? 56 then D8 u
  else D9 u.

(** The longest run of decimal digits at the head of [s]. *)
Fixpoint read_uint (s : pystr) : uint * pystr :=
  match s with
  | c :: s' =>
      if is_digit c then let '(u, rest) := read_uint s' in (digit_cons c u, rest)
      else (Nil, s)
  | [] => (Nil, [])
  end.

(** Does [s] start with a character that would continue a number? *)
Definition continues_number (s : pystr) : bool :=
  match s with
  | c :: _ => is_digit c || (c =? 46) || (c =? 101) || (c =? 69)
  | [] => false
  end.

(** An integer literal: an optional minus sign, then either a single 0 or
    a digit from 1 to 9 followed by digits; not followed by a fraction or
    an exponent. *)
Definition parse_digits (neg : bool) (s : pystr) : option (Z * pystr) :=
  match read_uint s with
  | (Nil, _) => None
  | (D0 (D0 _ | D1 _ | D2 _ | D3 _ | D4 _ | D5 _ | D6 _ | D7 _ | D8 _ | D9 _), _) => None
  | (u, rest) =>
      if continues_number rest then None
      else Some (Z.of_int (if neg then Neg u else Pos u), rest)
  end.

Definition parse_int (s : pystr) : option (Z * pystr) :=
  match s with
  | c :: s' => if c =? 45 then parse_digits true s' else parse_digits false s
  | [] => None
  end.

(** [s] starts with the literal [w]: the text after it. *)
Fixpoint expect (w s : pystr) : option pystr :=
  match w, s with
  | [], _ => Some s
  | a :: w', c :: s' => if a =? c then expect w' s' else None
  | _ :: _, [] => None
  end.

(** The scanner: one value at the head of [s] (which does not start with
    white space), the elements of an array after its first bracket, the
    members of an object after its first brace.  [fuel] bounds the number
    of nested calls; every call consumes a character, so the length of
    the text is enough. *)
Fixpoint parse_value (fuel : nat) (s : pystr) : option (pyval * pystr) :=
  match fuel with
  | O => None
  | S fuel =>
      match s with
      | [] => None
      | c :: s1 =>
          if c =? QUOTE then
            match scanstring s1 with
            | Some (str, rest) => Some (PyStr str, rest)
            | None => None
            end
          else if c =? 123 then
            match skip_ws s1 with
            | c' :: s2 =>
                if c' =? 125 then Some (PyDict [], s2)
                else match parse_members fuel (c' :: s2) with
                     | Some (d, rest) => Some (PyDict d, rest)
                     | None => None
                     end
            | [] => None
            end
          else if c =? 91 then
            match skip_ws s1 with
            | c' :: s2 =>
                if c' =? 93 then Some (PyList [], s2)
                else match parse_elems fuel (c' :: s2) with
                     | Some (l, rest) => Some (PyList l, rest)
                     | None => None
                     end
            | [] => None
            end
          else if c =? 110 then
            match expect (lit "ull") s1 with Some rest => Some (PyNone, rest) | None => None end
          else if c =? 116 then
            match expect (lit "rue") s1 with Some rest => Some (PyBool true, rest) | None => None end
          else if c =? 102 then
            match expect (lit "alse") s1 with Some rest => Some (PyBool false, rest) | None => None end
          else
            match parse_int s with
            | Some (z, rest) => Some (PyInt z, rest)
            | None => None
            end
      end
  end
with parse_elems (fuel : nat) (s : pystr) : option (list pyval * pystr) :=
  match fuel with
  | O => None
  | S fuel =>
      match parse_value fuel s with
      | None => None
      | Some (v, r) =>
          match skip_ws r with
          | c :: r1 =>
              if c =? 93 then Some ([v], r1)
              else if c =? 44 then
                match parse_elems fuel (skip_ws r1) with
                | Some (vs, rest) => Some (v :: vs, rest)
                | None => None
                end
              else None
          | [] => None
          end
      end
  end
with parse_members (fuel : nat) (s : pystr) : option (list (pystr * pyval) * pystr) :=
  match fuel with
  | O => None
  | S fuel =>
      match s with
      | q :: s1 =>
          if q =? QUOTE then
            match scanstring s1 with
            | None => None
            | Some (k, r) =>
                match skip_ws r with
                | c :: r1 =>
                    if c =? 58 then
                      match parse_value fuel (skip_ws r1) with
                      | None => None
                      | Some (v, r2) =>
                          match skip_ws r2 with
                          | c2 :: r3 =>
                              if c2 =? 125 then Some ([(k, v)], r3)
                              else if c2 =? 44 then
                                match parse_members fuel (skip_ws r3) with
                                | Some (ms, rest) => Some ((k, v) :: ms, rest)
                                | None => None
                                end
                              else None
                          | [] => None
                          end
                      end
                    else None
                | [] => None
                end
            end
          else None
      | [] => None
      end
  end.

(** [json.loads]: one value, surrounded by optional white space, and
    nothing else. *)
Definition json_loads (s : pystr) : option pyval :=
  match parse_value (S (length s)) (skip_ws s) with
  | Some (v, rest) => match skip_ws rest with [] => Some v | _ :: _ => None end
  | None => None
  end.

(** [obj[key]] on a decoded object. *)
Fixpoint dict_get (key : pystr) (d : list (pystr * pyval)) : option pyval :=
  match d with
  | [] => None
  | (k, v) :: d' => if decide (k = key) then Some v else dict_get key d'
  end.

Definition py_getitem (v : pyval) (key : pystr) : option pyval :=
  match v with
  | PyDict d => dict_get key d
  | _ => None
  end.

(** The lines of a text file, each ended by a newline (a last line
    without one is kept as well), without their newline. *)
Fixpoint split_lines (s : pystr) : list pystr :=
  match s with
  | [] => []
  | c :: s' =>
      if c =? NEWLINE then [] :: split_lines s'
      else match split_lines s' with
           | [] => [[c]]
           | l :: ls => (c :: l) :: ls
           end
  end.

(** [ls] written line by line. *)
Definition unlines (ls : list pystr) : pystr := flat_map (fun l => l ++ [NEWLINE]) ls.

(** ** Exceptions, the world and the monad of the script *)

(** A Python exception, known by the name of its class. *)
Inductive exn : Type := PyExc (cls : string).

(** A call either returns or raises. *)
Inductive outcome (A : Type) : Type :=
  | Returned (a : A)
  | Raised (e : exn).
Arguments Returned {A} a.
Arguments Raised {A} e.

(** What the script can change: the text of [./target/index_chunks.jsonl]
    ([None] while the file does not exist) and the text sent to the
    console.  The file is a text file opened with [encoding="utf-8"]; it
    is modelled at the level of the code points written to it, with the
    newline kept as it is (POSIX), and written through (the [with] block
    closes, hence flushes, the file on every exit). *)
Record world : Type := World { out_file : option pystr; stdout : pystr }.

(** State passing with exceptions: a raise keeps the world reached so far
    and skips the rest. *)
Definition prog (A : Type) : Type := world -> outcome A * world.

#[global] Instance prog_ret : MRet prog := fun A a w => (Returned a, w).
#[global] Instance prog_bind : MBind prog := fun A B f m w =>
  match m w with
  | (Returned a, w') => f a w'
  | (Raised e, w') => (Raised e, w')
  end.

(** A call into an external library: no effect on the world of the
    script, returns or raises. *)
Definition call {A : Type} (r : outcome A) : prog A := fun w => (r, w).

(** [print(s)]: the console takes any text. *)
Definition print (s : pystr) : prog unit :=
  fun w => (Returned tt, World (out_file w) (stdout w ++ s ++ [NEWLINE])).

(** ** Chunks, as the script reads them

    [DocChunk] and [DocMeta] are Docling's: the script reads [chunk.text],
    [chunk.meta.doc_items] (objects it only passes to [str]),
    [chunk.meta.headings] and [chunk.meta.captions].  Docling declares the
    last two as [Optional[list[str]]]: a list of strings, or [None] when
    the chunk has no heading or no caption. *)
Record DocMeta (DocItem : Type) : Type := mkDocMeta {
  doc_items : list DocItem;
  headings : option (list pystr);
  captions : option (list pystr);
}.
Arguments mkDocMeta {DocItem} _ _ _.
Arguments doc_items {DocItem} _.
Arguments headings {DocItem} _.
Arguments captions {DocItem} _.

Record DocChunk (DocItem : Type) : Type := mkDocChunk {
  text : pystr;
  meta : DocMeta DocItem;
}.
Arguments mkDocChunk {DocItem} _ _.
Arguments text {DocItem} _.
Arguments meta {DocItem} _.

(** An [Optional[list[str]]] as a Python value. *)
Definition py_opt_strs (o : option (list pystr)) : pyval :=
  match o with
  | Some l => PyList (map PyStr l)
  | None => PyNone
  end.

(** ** The script *)

Definition input_path : pystr := lit "./target/generated-docs/index.pdf".

(** [str(Path("./target/index_chunks.jsonl"))]: [pathlib] drops the
    leading [./] (POSIX flavour). *)
Definition output_path : pystr := lit "target/index_chunks.jsonl".

Section Script.
Context {Document DocItem : Type}.

(** [str(ref)] for a reference object of the chunker. *)
Variable py_str : DocItem -> pystr.
(** [DocumentConverter().convert(path).document]. *)
Variable convert : pystr -> outcome Document.
(** [list(HierarchicalChunker().chunk(doc))]. *)
Variable chunker_chunk : Document -> outcome (list (DocChunk DocItem)).
(** The exception raised by [open(output_path, "w", encoding="utf-8")],
    if it raises. *)
Variable open_fault : option exn.
(** The exception raised by [f.write(s)] when the file holds [content],
    if it raises (a full disk, a string that UTF-8 cannot encode). *)
Variable write_fault : pystr -> pystr -> option exn.

(** [f.write(s)]: appends, or raises and leaves the file as it is. *)
Definition f_write (s : pystr) : prog unit :=
  fun w =>
    let content := default [] (out_file w) in
    match write_fault content s with
    | Some e => (Raised e, w)
    | None => (Returned tt, World (Some (content ++ s)) (stdout w))
    end.

(** [with open(output_path, "w", encoding="utf-8") as f: body]: mode
    ["w"] creates the file or empties it; an exception of the body
    leaves the block after the file is closed. *)
Definition with_open {A : Type} (body : prog A) : prog A :=
  fun w =>
    match open_fault with
    | Some e => (Raised e, w)
    | None => body (World (Some []) (stdout w))
    end.

(** The dictionary built for chunk [i]. *)
Definition chunk_dict (i : nat) (chunk : DocChunk DocItem) : pyval :=
  PyDict
    [ (lit "chunk_id", PyInt (Z.of_nat i));
      (lit "text", PyStr (text chunk));
      (lit "meta",
        PyDict
          [ (lit "doc_items", PyList (map (fun ref => PyStr (py_str ref)) (doc_items (meta chunk))));
            (lit "headings", py_opt_strs (headings (meta chunk)));
            (lit "captions", py_opt_strs (captions (meta chunk))) ]) ].

(** [f"Saving chunk {i} with {len(chunk.text)} characters"]. *)
Definition progress_line (i : nat) (chunk : DocChunk DocItem) : pystr :=
  lit "Saving chunk " ++ str_nat i ++ lit " with " ++ str_nat (length (text chunk))
  ++ lit " characters".

(** The summary line: a check mark, then
    [f" Saved {len(chunks)} chunks to {output_path}"]. *)
Definition summary_line (chunks : list (DocChunk DocItem)) : pystr :=
  CHECK_MARK :: lit " Saved " ++ str_nat (length chunks) ++ lit " chunks to " ++ output_path.

(** The line written for chunk [i], without its newline. *)
Definition json_line (i : nat) (chunk : DocChunk DocItem) : pystr :=
  json_dumps (chunk_dict i chunk).

(** [for i, chunk in enumerate(chunks): ...], from index [i] on. *)
Fixpoint save_chunks (i : nat) (chunks : list (DocChunk DocItem)) : prog unit :=
  match chunks with
  | [] => mret tt
  | chunk :: rest =>
      print (progress_line i chunk) ;;
      f_write (json_line i chunk ++ [NEWLINE]) ;;
      save_chunks (S i) rest
  end.

(** The whole script. *)
Definition main : prog unit :=
  doc ← call (convert input_path) ;
  chunks ← call (chunker_chunk doc) ;
  with_open (save_chunks 0 chunks) ;;
  print (summary_line chunks).

(** A run of the script as a process: the console starts empty, the
    output file is as an earlier run left it. *)
Definition run (old_file : option pystr) : outcome unit * world :=
  main (World old_file []).

(** A stage of the script raises [e], the stages before it having
    returned: the conversion, the chunking, the opening of the output
    file, or the write of line [k] after [k] lines were written. *)
Inductive stage_raises (e : exn) : Prop :=
  | convert_raises :
      convert input_path = Raised e ->
      stage_raises e
  | chunker_raises doc :
      convert input_path = Returned doc ->
      chunker_chunk doc = Raised e ->
      stage_raises e
  | open_raises doc chunks :
      convert input_path = Returned doc ->
      chunker_chunk doc = Returned chunks ->
      open_fault = Some e ->
      stage_raises e
  | write_raises doc chunks k chunk :
      convert input_path = Returned doc ->
      chunker_chunk doc = Returned chunks ->
      open_fault = None ->
      chunks !! k = Some chunk ->
      (forall j c, (j < k)%nat -> chunks !! j = Some c ->
         write_fault (unlines (take j (imap json_line chunks))) (json_line j c ++ [NEWLINE])
         = None) ->
      write_fault (unlines (take k (imap json_line chunks))) (json_line k chunk ++ [NEWLINE])
      = Some e ->
      stage_raises e.

(** The lines of the output file and of the console after a run. *)
Definition file_lines (w : world) : list pystr := split_lines (default [] (out_file w)).
Definition console_lines (w : world) : list pystr := split_lines (stdout w).
End Script.

(** ** Reading a progress line *)

(** A decimal natural number at the head of [s]. *)
Definition read_nat (s : pystr) : option (nat * pystr) :=
  match read_uint s with
  | (Nil, _) => None
  | (u, rest) => Some (Nat.of_uint u, rest)
  end.

(** The index and the character count shown by a progress line, a line of
    the form [Saving chunk <index> with <count> characters]. *)
Definition parse_progress (line : pystr) : option (nat * nat) :=
  s1 ← expect (lit "Saving chunk ") line;
  '(i, s2) ← read_nat s1;
  s3 ← expect (lit " with ") s2;
  '(n, s4) ← read_nat s3;
  s5 ← expect (lit " characters") s4;
  match s5 with
  | [] => Some (i, n)
  | _ :: _ => None
  end.

(** A code point outside ASCII. *)
Definition non_ascii (c : N) : bool := 128 <=? c.

(** ** Reading a field of an output line *)

(** [json.loads(line)[key]]. *)
Definition decoded_field (line key : pystr) : option pyval :=
  match json_loads line with
  | Some v => py_getitem v key
  | None => None
  end.

(** [json.loads(line)["meta"][key]]. *)
Definition decoded_meta_field (line key : pystr) : option pyval :=
  match decoded_field line (lit "meta") with
  | Some m => py_getitem m key
  | None => None
  end.

Definition is_str (v : pyval) : bool :=
  match v with PyStr _ => true | _ => false end.

(** A list all of whose elements are strings. *)
Definition is_str_list (v : pyval) : bool :=
  match v with PyList l => forallb is_str l | _ => false end.

Definition holds_str_list (o : option pyval) : bool :=
  match o with Some v => is_str_list v | None => false end.

(** The line decodes to a record whose [doc_items], [headings] and
    [captions] are all lists of strings. *)
Definition meta_string_lists (line : pystr) : bool :=
  holds_str_list (decoded_meta_field line (lit "doc_items"))
  && holds_str_list (decoded_meta_field line (lit "headings"))
  && holds_str_list (decoded_meta_field line (lit "captions")).

(** ** A small run, used to try the statements below *)

Definition demo_chunk0 : DocChunk nat :=
  mkDocChunk [72; 233; 108; 108; 111; 10; 128512]
    (mkDocMeta [0%nat; 1%nat] (Some [lit "Intro"]) None).
Definition demo_chunk1 : DocChunk nat :=
  mkDocChunk (lit "Second") (mkDocMeta [2%nat] None (Some [lit "Figure 1"; [233]])).
Definition demo_chunks : list (DocChunk nat) := [demo_chunk0; demo_chunk1].

Definition demo_str (n : nat) : pystr := lit "#/texts/" ++ str_nat n.
Definition demo_convert (path : pystr) : outcome unit := Returned tt.
Definition demo_chunker (doc : unit) : outcome (list (DocChunk nat)) := Returned demo_chunks.
Definition no_write_fault (content s : pystr) : option exn := None.

Definition demo_run : outcome unit * world :=
  run demo_str demo_convert demo_chunker None no_write_fault None.

Definition demo_line0 : pystr := json_line demo_str 0 demo_chunk0.
Definition demo_progress0 : pystr := progress_line 0 demo_chunk0.

(** Another converter and another earlier output file, same chunks. *)
Definition other_convert (path : pystr) : outcome nat := Returned 7%nat.
Definition other_chunker (doc : nat) : outcome (list (DocChunk nat)) := Returned demo_chunks.
Definition other_run : outcome unit * world :=
  run demo_str other_convert other_chunker None no_write_fault (Some (lit "stale")).

(** A disk that takes one line and no more. *)
Definition full_after_first (content s : pystr) : option exn :=
  match content with
  | [] => None
  | _ :: _ => Some (PyExc "OSError")
  end.
Definition disk_full_run : outcome unit * world :=
  run demo_str demo_convert demo_chunker None full_after_first None.

(** The same script with a missing input file: the converter raises. *)
Definition missing_convert (path : pystr) : outcome unit := Raised (PyExc "FileNotFoundError").
Definition missing_run (old_file : option pystr) : outcome unit * world :=
  run demo_str missing_convert demo_chunker None no_write_fault old_file.

(** ** Other small runs *)

(** The chunker raises. *)
Definition failing_chunker (doc : unit) : outcome (list (DocChunk nat)) :=
  Raised (PyExc "ValueError").
Definition chunker_fail_run (old_file : option pystr) : outcome unit * world :=
  run demo_str demo_convert failing_chunker None no_write_fault old_file.


(** A text that needs no escape: no control character, no quote, no
    backslash. *)
Definition plain_char (c : N) : bool :=
  (32 <=? c) && negb (c =? QUOTE) && negb (c =? BACKSLASH).

(** ** Notions used in the proofs *)

Definition starts_with_digit (s : pystr) : bool :=
  match s with c :: _ => is_digit c | [] => false end.

(** The number of scanner calls that reading a value back takes. *)
Fixpoint size (v : pyval) : nat :=
  match v with
  | PyList l => S (list_sum (map (fun v => S (size v)) l))
  | PyDict d => S (list_sum (map (fun kv => S (size (snd kv))) d))
  | _ => 1
  end.

(** [s] starts where a value can start: not with white space, not with a
    closing bracket. *)
Definition value_start (s : pystr) : bool :=
  match s with
  | c :: _ => negb (is_ws c) && negb (c =? 93)
  | [] => false
  end.

(** The text of one member of an object. *)
Definition dumps_member (kv : pystr * pyval) : pystr :=
  encode_basestring (fst kv) ++ lit ": " ++ json_dumps (snd kv).

(** What the induction carries for a value: enough fuel reads it back. *)
Definition reads_back (v : pyval) : Prop :=
  forall fuel rest,
    (size v <= fuel)%nat -> continues_number rest = false ->
    parse_value fuel (json_dumps v ++ rest) = Some (v, rest).

(** * Properties *)

(** ** The definitions at work *)

Example dumps_ex :
  json_dumps (PyDict [(lit "a", PyInt 12); (lit "b", PyList [PyStr [233; 10]; PyNone])])
  = lit "{" ++ [QUOTE] ++ lit "a" ++ [QUOTE] ++ lit ": 12, " ++ [QUOTE] ++ lit "b" ++ [QUOTE]
    ++ lit ": [" ++ [QUOTE; 233; BACKSLASH] ++ lit "n" ++ [QUOTE] ++ lit ", null]}".
Proof. reflexivity. Qed.

Example loads_ex :
  json_loads (lit "{ " ++ [QUOTE] ++ [97; 233; 128512] ++ [QUOTE] ++ lit " : [1, -20 ,true, null,[], {}] } ")
  = Some (PyDict [([97; 233; 128512], PyList [PyInt 1; PyInt (-20); PyBool true; PyNone; PyList []; PyDict []])]).
Proof. vm_compute. reflexivity. Qed.
Example loads_escapes :
  json_loads ([QUOTE; BACKSLASH] ++ lit "ud83d" ++ [BACKSLASH] ++ lit "ude00" ++ [BACKSLASH]
              ++ lit "u00e9" ++ [BACKSLASH] ++ lit "n" ++ [QUOTE])
  = Some (PyStr [128512; 233; 10]).
Proof. vm_compute. reflexivity. Qed.
Example loads_bad1 : json_loads (lit "[1, 02]") = None. Proof. reflexivity. Qed.
Example loads_bad2 : json_loads (lit "[1,]") = None. Proof. reflexivity. Qed.
Example loads_bad3 : json_loads (lit "1.5") = None. Proof. reflexivity. Qed.
Example loads_bad4 : json_loads (lit "{} x") = None. Proof. reflexivity. Qed.
Example parse_progress_ex :
  parse_progress (lit "Saving chunk 12 with 3456 characters") = Some (12%nat, 3456%nat).
Proof. reflexivity. Qed.
Example parse_progress_bad : parse_progress (lit "Saving chunk 12 with characters") = None.
Proof. reflexivity. Qed.
Example split_ex : split_lines (lit "ab" ++ [10; 10] ++ lit "c" ++ [10]) = [lit "ab"; []; lit "c"].
Proof. reflexivity. Qed.

Example demo_run_ex :
  demo_run =
  (Returned tt,
   World
     (Some (lit "{" ++ [QUOTE] ++ lit "chunk_id" ++ [QUOTE] ++ lit ": 0, " ++ [QUOTE] ++ lit "text"
            ++ [QUOTE] ++ lit ": " ++ [QUOTE; 72; 233] ++ lit "llo" ++ [BACKSLASH] ++ lit "n"
            ++ [128512; QUOTE] ++ lit ", " ++ [QUOTE] ++ lit "meta" ++ [QUOTE] ++ lit ": {" ++ [QUOTE]
            ++ lit "doc_items" ++ [QUOTE] ++ lit ": [" ++ [QUOTE] ++ lit "#/texts/0" ++ [QUOTE]
            ++ lit ", " ++ [QUOTE] ++ lit "#/texts/1" ++ [QUOTE] ++ lit "], " ++ [QUOTE]
            ++ lit "headings" ++ [QUOTE] ++ lit ": [" ++ [QUOTE] ++ lit "Intro" ++ [QUOTE] ++ lit "], "
            ++ [QUOTE] ++ lit "captions" ++ [QUOTE] ++ lit ": null}}" ++ [NEWLINE]
            ++ lit "{" ++ [QUOTE] ++ lit "chunk_id" ++ [QUOTE] ++ lit ": 1, " ++ [QUOTE] ++ lit "text"
            ++ [QUOTE] ++ lit ": " ++ [QUOTE] ++ lit "Second" ++ [QUOTE] ++ lit ", " ++ [QUOTE]
            ++ lit "meta" ++ [QUOTE] ++ lit ": {" ++ [QUOTE] ++ lit "doc_items" ++ [QUOTE] ++ lit ": ["
            ++ [QUOTE] ++ lit "#/texts/2" ++ [QUOTE] ++ lit "], " ++ [QUOTE] ++ lit "headings"
            ++ [QUOTE] ++ lit ": null, " ++ [QUOTE] ++ lit "captions" ++ [QUOTE] ++ lit ": ["
            ++ [QUOTE] ++ lit "Figure 1" ++ [QUOTE] ++ lit ", " ++ [QUOTE; 233; QUOTE] ++ lit "]}}"
            ++ [NEWLINE]))
     (lit "Saving chunk 0 with 7 characters" ++ [NEWLINE]
      ++ lit "Saving chunk 1 with 6 characters" ++ [NEWLINE]
      ++ [CHECK_MARK] ++ lit " Saved 2 chunks to target/index_chunks.jsonl" ++ [NEWLINE])).
Proof. vm_compute. reflexivity. Qed.


(** ** Induction on Python values *)

Lemma pyval_ind (P : pyval -> Prop) :
  P PyNone ->
  (forall b, P (PyBool b)) ->
  (forall z, P (PyInt z)) ->
  (forall s, P (PyStr s)) ->
  (forall l, Forall P l -> P (PyList l)) ->
  (forall d, Forall (fun kv => P (snd kv)) d -> P (PyDict d)) ->
  forall v, P v.
Proof.
  intros HNone HBool HInt HStr HList HDict.
  fix IH 1. intros [ | b | z | s | l | d ].
  - exact HNone.
  - apply HBool.
  - apply HInt.
  - apply HStr.
  - apply HList. induction l as [ | v l IHl ]; constructor; [ apply IH | exact IHl ].
  - apply HDict. induction d as [ | [k v] d IHd ]; constructor; [ apply IH | exact IHd ].
Qed.

(** ** Decimal numbers are read back *)

Lemma read_uint_chars u rest :
  starts_with_digit rest = false ->
  read_uint (uint_chars u ++ rest) = (u, rest).
Proof.
  intros Hrest. induction u as [ | u IH | u IH | u IH | u IH | u IH | u IH | u IH | u IH | u IH | u IH ];
    try (cbn [uint_chars app read_uint]; rewrite IH; reflexivity).
  destruct rest as [ | c rest ]; [ reflexivity | ].
  cbn in Hrest. cbn [uint_chars app read_uint]. rewrite Hrest. reflexivity.
Qed.

Lemma continues_number_digit rest :
  continues_number rest = false -> starts_with_digit rest = false.
Proof.
  destruct rest as [ | c rest ]; [ reflexivity | ]. cbn.
  intros H. repeat (apply orb_false_elim in H as [H _]). exact H.
Qed.

Lemma pos_to_uint_unorm p : unorm (Pos.to_uint p) = Pos.to_uint p.
Proof.
  change (Pos.to_uint p) with (N.to_uint (N.pos p)).
  rewrite <- (DecimalN.Unsigned.of_to (N.pos p)) at 2.
  symmetry. apply DecimalN.Unsigned.to_of.
Qed.

Lemma pos_to_uint_nzhead p : nzhead (Pos.to_uint p) = Pos.to_uint p.
Proof.
  assert (Hnn : nzhead (Pos.to_uint p) <> Nil).
  { intros Hnil. apply unorm_0 in Hnil. rewrite pos_to_uint_unorm in Hnil.
    exact (DecimalPos.Unsigned.to_uint_nonzero p Hnil). }
  rewrite <- (unorm_nzhead _ Hnn). apply pos_to_uint_unorm.
Qed.

Lemma pos_to_uint_head p u : Pos.to_uint p <> D0 u.
Proof. rewrite <- pos_to_uint_nzhead. apply nzhead_nonzero. Qed.

(** A numeral without a useless leading zero, followed by something that
    does not continue it, is read as itself. *)
Lemma parse_digits_chars (neg : bool) u rest :
  u <> Nil -> (forall u', u' <> Nil -> u <> D0 u') ->
  continues_number rest = false ->
  parse_digits neg (uint_chars u ++ rest)
  = Some (Z.of_int (if neg then Neg u else Pos u), rest).
Proof.
  intros Hnil Hzero Hrest. unfold parse_digits.
  rewrite read_uint_chars by (apply continues_number_digit, Hrest).
  destruct u as [ | u' | | | | | | | | | ]; try congruence;
    try (rewrite Hrest; reflexivity).
  destruct u'; try (exfalso; eapply Hzero; [ | reflexivity ]; discriminate);
    rewrite Hrest; reflexivity.
Qed.

Lemma uint_chars_head u :
  u <> Nil -> exists c tl, uint_chars u = c :: tl /\ is_digit c = true.
Proof. destruct u; [ congruence | .. ]; intros _; eexists _, _; split; reflexivity. Qed.

Lemma parse_int_repr z rest :
  continues_number rest = false ->
  parse_int (repr_int z ++ rest) = Some (z, rest).
Proof.
  intros Hrest. unfold repr_int.
  assert (Hz : Z.of_int (Z.to_int z) = z) by apply DecimalZ.of_to.
  assert (Hu : forall u, (exists p, u = Pos.to_uint p) \/ u = zero ->
            u <> Nil /\ (forall u', u' <> Nil -> u <> D0 u')).
  { intros u [[p ->] | ->].
    - split; [ apply DecimalPos.Unsigned.to_uint_nonnil | intros; apply pos_to_uint_head ].
    - split; [ discriminate | intros u' Hu' [= <-]; congruence ]. }
  destruct (Z.to_int z) as [u | u] eqn:Hi.
  - assert (Hform : (exists p, u = Pos.to_uint p) \/ u = zero).
    { destruct z; cbn in Hi; simplify_eq; eauto. }
    destruct (Hu u Hform) as [Hnil Hzero].
    destruct (uint_chars_head u Hnil) as (c & tl & Hc & Hdig).
    unfold parse_int. rewrite Hc. cbn [app].
    assert ((c =? 45) = false) as ->.
    { apply N.eqb_neq. intros ->. discriminate. }
    rewrite <- Hz. rewrite <- (parse_digits_chars false u rest Hnil Hzero Hrest).
    rewrite Hc. reflexivity.
  - assert (Hform : (exists p, u = Pos.to_uint p) \/ u = zero).
    { destruct z; cbn in Hi; simplify_eq; eauto. }
    destruct (Hu u Hform) as [Hnil Hzero].
    cbn [app parse_int]. change (45 =? 45) with true. cbn iota.
    rewrite <- Hz. apply (parse_digits_chars true u rest Hnil Hzero Hrest).
Qed.

(** ** Encoded strings are read back *)

Lemma below_32 (P : N -> Prop) :
  Forall P (map N.of_nat (seq 0 32)) -> forall c, c < 32 -> P c.
Proof.
  intros HP c Hc. rewrite List.Forall_forall in HP. apply HP.
  replace c with (N.of_nat (N.to_nat c)) by lia.
  apply in_map, in_seq. lia.
Qed.

Lemma escape_char_plain c :
  32 <= c -> c <> QUOTE -> c <> BACKSLASH -> escape_char c = [c].
Proof.
  unfold escape_char, QUOTE, BACKSLASH. intros Hc Hq Hb.
  repeat match goal with
         | |- context [N.eqb c ?k] => destruct (N.eqb_spec c k); [ lia | ]
         end.
  destruct (N.ltb_spec c 32); [ lia | reflexivity ].
Qed.

Lemma scanstring_escape_char c tail :
  scanstring (escape_char c ++ tail)
  = match scanstring tail with
    | Some (str, rest) => Some (c :: str, rest)
    | None => None
    end.
Proof.
  destruct (N.ltb_spec c 32) as [Hlt | Hge].
  - revert tail. pattern c. revert c Hlt. apply below_32.
    repeat (constructor; [ intros tail; reflexivity | ]). constructor.
  - destruct (N.eqb_spec c QUOTE) as [-> | Hq]; [ reflexivity | ].
    destruct (N.eqb_spec c BACKSLASH) as [-> | Hb]; [ reflexivity | ].
    rewrite escape_char_plain by assumption.
    cbn [app scanstring].
    apply N.eqb_neq in Hq, Hb. apply N.ltb_ge in Hge.
    rewrite Hq, Hb, Hge. reflexivity.
Qed.

Lemma scanstring_encoded s rest :
  scanstring (flat_map escape_char s ++ QUOTE :: rest) = Some (s, rest).
Proof.
  induction s as [ | c s IH ]; [ reflexivity | ].
  cbn [flat_map]. rewrite <- app_assoc, scanstring_escape_char, IH. reflexivity.
Qed.

(** ** Encoded values are read back *)

Lemma repr_int_head z :
  exists c tl, repr_int z = c :: tl /\ (c = 45 \/ is_digit c = true).
Proof.
  unfold repr_int.
  assert (Hnil : forall u, Z.to_int z = Pos u \/ Z.to_int z = Neg u -> u <> Nil).
  { intros u Hu. destruct z; cbn in Hu; destruct Hu; simplify_eq;
      first [ discriminate | apply DecimalPos.Unsigned.to_uint_nonnil ]. }
  destruct (Z.to_int z) as [u | u].
  - destruct (uint_chars_head u) as (c & tl & -> & Hc); eauto.
  - eauto.
Qed.

Lemma is_digit_range c : is_digit c = true -> 48 <= c <= 57.
Proof. unfold is_digit. intros [H1 H2]%andb_prop. apply N.leb_le in H1, H2. lia. Qed.

Lemma json_dumps_head v rest : value_start (json_dumps v ++ rest) = true.
Proof.
  destruct v as [ | [ | ] | z | s | l | d ]; try reflexivity.
  cbn [json_dumps]. destruct (repr_int_head z) as (c & tl & -> & [-> | Hc]); [ reflexivity | ].
  apply is_digit_range in Hc. cbn. unfold is_ws.
  repeat match goal with
         | |- context [N.eqb c ?k] => destruct (N.eqb_spec c k); [ lia | ]
         end.
  reflexivity.
Qed.

Lemma value_start_skip_ws s : value_start s = true -> skip_ws s = s.
Proof.
  destruct s as [ | c s ]; [ reflexivity | ]. cbn.
  intros [Hws _]%andb_prop. apply negb_true_iff in Hws. rewrite Hws. reflexivity.
Qed.

Lemma skip_ws_dumps v rest : skip_ws (json_dumps v ++ rest) = json_dumps v ++ rest.
Proof. apply value_start_skip_ws, json_dumps_head. Qed.

(** The equations of the scanner on the shapes the encoder produces. *)

Lemma parse_value_int fuel z rest :
  continues_number rest = false ->
  parse_value (S fuel) (repr_int z ++ rest) = Some (PyInt z, rest).
Proof.
  intros Hrest. pose proof (parse_int_repr z rest Hrest) as Hparse.
  destruct (repr_int_head z) as (c & tl & Hz & Hc). rewrite Hz in *.
  cbn [app parse_value].
  assert (Hcases : c = 45 \/ 48 <= c <= 57) by (destruct Hc; auto using is_digit_range).
  unfold QUOTE.
  repeat match goal with
         | |- context [N.eqb c ?k] => destruct (N.eqb_spec c k); [ lia | ]
         end.
  cbn [app] in Hparse. rewrite Hparse. reflexivity.
Qed.

Lemma parse_value_str fuel s rest :
  parse_value (S fuel) (encode_basestring s ++ rest) = Some (PyStr s, rest).
Proof.
  unfold encode_basestring. cbn [app parse_value].
  rewrite N.eqb_refl, <- app_assoc. cbn [app].
  rewrite scanstring_encoded. reflexivity.
Qed.

Lemma parse_value_list fuel s l rest :
  value_start s = true ->
  parse_elems fuel s = Some (l, rest) ->
  parse_value (S fuel) (91 :: s) = Some (PyList l, rest).
Proof.
  intros Hs Hl. cbn [parse_value]. change (91 =? QUOTE) with false.
  change (91 =? 123) with false. change (91 =? 91) with true. cbn iota.
  rewrite (value_start_skip_ws s Hs).
  destruct s as [ | c s ]; [ discriminate | ].
  cbn in Hs. apply andb_prop in Hs as [_ Hc]. apply negb_true_iff in Hc.
  rewrite Hc, Hl. reflexivity.
Qed.

Lemma parse_elems_last fuel s v rest :
  parse_value fuel s = Some (v, 93 :: rest) ->
  parse_elems (S fuel) s = Some ([v], rest).
Proof. intros Hv. cbn [parse_elems]. rewrite Hv. reflexivity. Qed.

Lemma parse_elems_more fuel s v r vs rest :
  parse_value fuel s = Some (v, 44 :: 32 :: r) ->
  value_start r = true ->
  parse_elems fuel r = Some (vs, rest) ->
  parse_elems (S fuel) s = Some (v :: vs, rest).
Proof.
  intros Hv Hr Hvs. cbn [parse_elems]. rewrite Hv.
  change (skip_ws (44 :: 32 :: r)) with (44 :: 32 :: r). cbn iota.
  change (44 =? 93) with false. change (44 =? 44) with true. cbn iota.
  change (skip_ws (32 :: r)) with (skip_ws r).
  rewrite (value_start_skip_ws r Hr), Hvs. reflexivity.
Qed.

Lemma parse_value_dict fuel s d rest :
  parse_members fuel (QUOTE :: s) = Some (d, rest) ->
  parse_value (S fuel) (123 :: QUOTE :: s) = Some (PyDict d, rest).
Proof. intros Hd. cbn [parse_value]. cbn. cbn in Hd. rewrite Hd. reflexivity. Qed.

Lemma parse_members_key fuel k s :
  value_start s = true ->
  parse_members (S fuel) (encode_basestring k ++ 58 :: 32 :: s)
  = match parse_value fuel s with
    | None => None
    | Some (v, r2) =>
        match skip_ws r2 with
        | c2 :: r3 =>
            if c2 =? 125 then Some ([(k, v)], r3)
            else if c2 =? 44 then
              match parse_members fuel (skip_ws r3) with
              | Some (ms, rest) => Some ((k, v) :: ms, rest)
              | None => None
              end
            else None
        | [] => None
        end
    end.
Proof.
  intros Hs. unfold encode_basestring. cbn [app parse_members].
  rewrite N.eqb_refl, <- app_assoc. cbn [app]. rewrite scanstring_encoded.
  change (skip_ws (58 :: 32 :: s)) with (58 :: 32 :: s). cbn iota.
  change (58 =? 58) with true. cbn iota.
  change (skip_ws (32 :: s)) with (skip_ws s).
  rewrite (value_start_skip_ws s Hs). reflexivity.
Qed.

Lemma parse_members_last fuel k s v rest :
  value_start s = true ->
  parse_value fuel s = Some (v, 125 :: rest) ->
  parse_members (S fuel) (encode_basestring k ++ 58 :: 32 :: s) = Some ([(k, v)], rest).
Proof. intros Hs Hv. rewrite parse_members_key, Hv by assumption. reflexivity. Qed.

Lemma parse_members_more fuel k s v r ms rest :
  value_start s = true ->
  parse_value fuel s = Some (v, 44 :: 32 :: QUOTE :: r) ->
  parse_members fuel (QUOTE :: r) = Some (ms, rest) ->
  parse_members (S fuel) (encode_basestring k ++ 58 :: 32 :: s) = Some ((k, v) :: ms, rest).
Proof.
  intros Hs Hv Hms. rewrite parse_members_key, Hv by assumption.
  change (skip_ws (44 :: 32 :: QUOTE :: r)) with (44 :: 32 :: QUOTE :: r). cbn iota.
  change (44 =? 125) with false. change (44 =? 44) with true. cbn iota.
  change (skip_ws (32 :: QUOTE :: r)) with (QUOTE :: r). rewrite Hms. reflexivity.
Qed.

Lemma join_comma_cons2 p q parts :
  join_comma (p :: q :: parts) = p ++ 44 :: 32 :: join_comma (q :: parts).
Proof. reflexivity. Qed.

Lemma join_comma_start v l rest :
  value_start (join_comma (map json_dumps (v :: l)) ++ rest) = true.
Proof.
  destruct l as [ | v' l ]; cbn [map].
  - apply json_dumps_head.
  - rewrite join_comma_cons2, <- app_assoc. apply json_dumps_head.
Qed.

Lemma join_members_start kv d rest :
  exists r, join_comma (map dumps_member (kv :: d)) ++ rest = QUOTE :: r.
Proof.
  destruct d as [ | kv' d ]; cbn [map].
  - eexists. reflexivity.
  - rewrite join_comma_cons2. eexists. reflexivity.
Qed.

Lemma parse_elems_dumps l :
  Forall reads_back l -> l <> [] ->
  forall fuel rest,
    (list_sum (map (fun v => S (size v)) l) <= fuel)%nat ->
    parse_elems fuel (join_comma (map json_dumps l) ++ 93 :: rest) = Some (l, rest).
Proof.
  induction 1 as [ | v l Hv Hl IH ]; [ congruence | ].
  intros _ fuel rest Hfuel. cbn [map list_sum fold_right] in Hfuel.
  destruct fuel as [ | fuel ]; [ lia | ].
  destruct l as [ | v' l' ].
  - cbn [map join_comma]. apply parse_elems_last. apply Hv; [ | reflexivity ].
    cbn [map list_sum fold_right] in Hfuel. lia.
  - cbn [map]. rewrite join_comma_cons2, <- app_assoc. cbn [app].
    eapply parse_elems_more.
    + apply Hv; [ lia | reflexivity ].
    + apply (join_comma_start v' l').
    + apply IH; [ congruence | unfold list_sum; lia ].
Qed.

Lemma parse_members_dumps d :
  Forall (fun kv => reads_back (snd kv)) d -> d <> [] ->
  forall fuel rest,
    (list_sum (map (fun kv => S (size (snd kv))) d) <= fuel)%nat ->
    parse_members fuel (join_comma (map dumps_member d) ++ 125 :: rest) = Some (d, rest).
Proof.
  induction 1 as [ | [k v] d Hv Hd IH ]; [ congruence | ].
  intros _ fuel rest Hfuel. cbn [map list_sum fold_right snd] in Hfuel, Hv.
  destruct fuel as [ | fuel ]; [ lia | ].
  destruct d as [ | kv' d' ].
  - cbn [map join_comma]. unfold dumps_member. cbn [fst snd].
    rewrite <- !app_assoc. cbn [app lit list_ascii_of_string map].
    apply parse_members_last; [ apply json_dumps_head | ].
    apply Hv; [ | reflexivity ]. cbn [snd map list_sum fold_right] in *. lia.
  - cbn [map]. rewrite join_comma_cons2. unfold dumps_member at 1. cbn [fst snd].
    rewrite <- !app_assoc. cbn [app lit list_ascii_of_string map].
    destruct (join_members_start kv' d' (125 :: rest)) as [r Hr].
    cbn [map] in Hr. specialize (IH ltac:(congruence) fuel rest ltac:(unfold list_sum; lia)).
    cbn [map] in IH. rewrite Hr in IH |- *.
    eapply parse_members_more; [ apply json_dumps_head | | exact IH ].
    apply Hv; [ lia | reflexivity ].
Qed.

Lemma parse_value_dumps v : reads_back v.
Proof.
  induction v as [ | b | z | s | l IH | d IH ] using pyval_ind;
    intros fuel rest Hfuel Hrest; (destruct fuel as [ | fuel ]; [ cbn in Hfuel; lia | ]).
  - reflexivity.
  - destruct b; reflexivity.
  - apply parse_value_int, Hrest.
  - apply parse_value_str.
  - destruct l as [ | v l ]; [ reflexivity | ].
    change (parse_value (S fuel)
              (91 :: (join_comma (map json_dumps (v :: l)) ++ [93]) ++ rest)
            = Some (PyList (v :: l), rest)).
    rewrite <- app_assoc. change ([93] ++ rest) with (93 :: rest).
    apply parse_value_list; [ apply (join_comma_start v l) | ].
    apply (parse_elems_dumps (v :: l)); [ exact IH | congruence | cbn [size] in Hfuel; lia ].
  - destruct d as [ | kv d ]; [ reflexivity | ].
    change (parse_value (S fuel)
              (123 :: (join_comma (map dumps_member (kv :: d)) ++ [125]) ++ rest)
            = Some (PyDict (kv :: d), rest)).
    rewrite <- app_assoc. change ([125] ++ rest) with (125 :: rest).
    destruct (join_members_start kv d (125 :: rest)) as [r Hr].
    pose proof (parse_members_dumps (kv :: d) IH ltac:(congruence) fuel rest) as Hm.
    rewrite Hr in Hm |- *.
    apply parse_value_dict, Hm. cbn [size] in Hfuel. lia.
Qed.

Lemma size_le_join {A : Type} (f : A -> nat) (g : A -> pystr) (l : list A) :
  Forall (fun a => (f a <= length (g a))%nat) l ->
  (list_sum (map (fun a => S (f a)) l) <= length (join_comma (map g l)) + 1)%nat.
Proof.
  induction 1 as [ | a l Ha Hl IH ]; [ cbn; lia | ].
  destruct l as [ | b l ].
  - cbn. lia.
  - cbn [map] in *. rewrite join_comma_cons2.
    change (list_sum (S (f a) :: ?t)) with (S (f a) + list_sum t)%nat.
    rewrite length_app. cbn [length]. lia.
Qed.

Lemma size_le_length v : (size v <= length (json_dumps v))%nat.
Proof.
  induction v as [ | b | z | s | l IH | d IH ] using pyval_ind.
  - cbn. lia.
  - destruct b; cbn; lia.
  - cbn [size json_dumps]. destruct (repr_int_head z) as (c & tl & -> & _). cbn. lia.
  - cbn. lia.
  - cbn [size json_dumps]. pose proof (size_le_join size json_dumps l IH).
    rewrite !length_app. cbn [length lit list_ascii_of_string map]. lia.
  - cbn [size]. change (json_dumps (PyDict d))
      with (lit "{" ++ join_comma (map dumps_member d) ++ lit "}").
    assert (Hd : Forall (fun kv => (size (snd kv) <= length (dumps_member kv))%nat) d).
    { eapply List.Forall_impl; [ | exact IH ]. intros [k v] Hv. unfold dumps_member.
      cbn [fst snd] in *. rewrite !length_app. lia. }
    pose proof (size_le_join (fun kv => size (snd kv)) dumps_member d Hd).
    rewrite !length_app. cbn [length lit list_ascii_of_string map]. lia.
Qed.

(** [json.loads(json.dumps(v, ensure_ascii=False)) == v]. *)
Lemma json_loads_dumps v : json_loads (json_dumps v) = Some v.
Proof.
  unfold json_loads.
  rewrite <- (app_nil_r (json_dumps v)) at 2. rewrite skip_ws_dumps.
  rewrite parse_value_dumps; [ reflexivity | | reflexivity ].
  pose proof (size_le_length v). lia.
Qed.

(** ** The encoder writes no control character *)

Lemma lit_app a b : lit (a ++ b) = lit a ++ lit b.
Proof.
  unfold lit. induction a as [ | c a IH ]; [ reflexivity | ].
  cbn [String.append list_ascii_of_string map app]. rewrite IH. reflexivity.
Qed.

Lemma escape_char_printable c : Forall (fun x => 32 <= x) (escape_char c).
Proof.
  destruct (N.ltb_spec c 32) as [Hlt | Hge].
  - pattern c. revert c Hlt. apply below_32.
    repeat (constructor; [ repeat (constructor; [ cbv; discriminate | ]); constructor | ]).
    constructor.
  - destruct (N.eqb_spec c QUOTE) as [-> | Hq];
      [ repeat (constructor; [ cbv; discriminate | ]); constructor | ].
    destruct (N.eqb_spec c BACKSLASH) as [-> | Hb];
      [ repeat (constructor; [ cbv; discriminate | ]); constructor | ].
    rewrite escape_char_plain by assumption. repeat constructor. exact Hge.
Qed.

Lemma encode_basestring_printable s : Forall (fun x => 32 <= x) (encode_basestring s).
Proof.
  unfold encode_basestring. constructor; [ cbv; discriminate | ].
  apply Forall_app. split; [ | repeat constructor; cbv; discriminate ].
  induction s as [ | c s IH ]; [ constructor | ].
  cbn [flat_map]. apply Forall_app. split; [ apply escape_char_printable | exact IH ].
Qed.

Lemma uint_chars_printable u : Forall (fun x => 32 <= x) (uint_chars u).
Proof. induction u; constructor; solve [ cbv; discriminate | assumption ]. Qed.

Lemma join_comma_printable parts :
  Forall (Forall (fun x => 32 <= x)) parts -> Forall (fun x => 32 <= x) (join_comma parts).
Proof.
  induction 1 as [ | p parts Hp Hparts IH ]; [ constructor | ].
  destruct parts as [ | q parts ]; [ exact Hp | ].
  rewrite join_comma_cons2. apply Forall_app. split; [ exact Hp | ].
  repeat (constructor; [ cbv; discriminate | ]). exact IH.
Qed.

Lemma json_dumps_printable v : Forall (fun x => 32 <= x) (json_dumps v).
Proof.
  induction v as [ | b | z | s | l IH | d IH ] using pyval_ind.
  - repeat (constructor; [ cbv; discriminate | ]). constructor.
  - destruct b; repeat (constructor; [ cbv; discriminate | ]); constructor.
  - cbn [json_dumps]. unfold repr_int. destruct (Z.to_int z).
    + apply uint_chars_printable.
    + constructor; [ cbv; discriminate | apply uint_chars_printable ].
  - apply encode_basestring_printable.
  - cbn [json_dumps]. constructor; [ cbv; discriminate | ].
    apply Forall_app. split; [ | repeat constructor; cbv; discriminate ].
    apply join_comma_printable. apply Forall_fmap. exact IH.
  - change (json_dumps (PyDict d))
      with (lit "{" ++ join_comma (map dumps_member d) ++ lit "}").
    constructor; [ cbv; discriminate | ].
    apply Forall_app. split; [ | repeat constructor; cbv; discriminate ].
    apply join_comma_printable. apply Forall_fmap.
    eapply List.Forall_impl; [ | exact IH ]. intros [k v] Hv. unfold dumps_member. cbn [fst snd] in *.
    apply Forall_app. split; [ apply encode_basestring_printable | ].
    repeat (constructor; [ cbv; discriminate | ]). exact Hv.
Qed.

Lemma json_dumps_no_newline v : NEWLINE ∉ json_dumps v.
Proof.
  intros Hin. pose proof (json_dumps_printable v) as Hall.
  rewrite List.Forall_forall in Hall. apply list_elem_of_In in Hin.
  specialize (Hall _ Hin). unfold NEWLINE in Hall. lia.
Qed.

(** ** Lines *)

Lemma split_lines_line l rest :
  NEWLINE ∉ l -> split_lines (l ++ NEWLINE :: rest) = l :: split_lines rest.
Proof.
  induction l as [ | c l IH ]; intros Hl; [ reflexivity | ].
  apply not_elem_of_cons in Hl as [Hc Hl]. cbn [app split_lines].
  destruct (N.eqb_spec c NEWLINE) as [ | _ ]; [ congruence | ].
  rewrite IH by assumption. reflexivity.
Qed.

Lemma split_lines_unlines ls :
  Forall (fun l => NEWLINE ∉ l) ls -> split_lines (unlines ls) = ls.
Proof.
  induction 1 as [ | l ls Hl Hls IH ]; [ reflexivity | ].
  unfold unlines in *. cbn [flat_map]. rewrite <- app_assoc. cbn [app].
  rewrite split_lines_line by assumption. rewrite IH. reflexivity.
Qed.

Lemma unlines_app ls1 ls2 : unlines (ls1 ++ ls2) = unlines ls1 ++ unlines ls2.
Proof. apply flat_map_app. Qed.

Lemma str_nat_printable n : Forall (fun x => 32 <= x) (str_nat n).
Proof. apply uint_chars_printable. Qed.

Lemma lit_printable_no_newline (l : pystr) : Forall (fun x => 32 <= x) l -> NEWLINE ∉ l.
Proof.
  intros Hall Hin. rewrite List.Forall_forall in Hall. apply list_elem_of_In in Hin.
  specialize (Hall _ Hin). unfold NEWLINE in Hall. lia.
Qed.

Lemma map_imap_seq {A B C : Type} (f : nat -> A -> B) (h : B -> C) (g : nat -> C) (l : list A) :
  (forall i x, h (f i x) = g i) ->
  map h (imap f l) = map g (seq 0 (length l)).
Proof.
  intros Hfg. apply list_eq. intros i.
  rewrite !list_lookup_fmap, list_lookup_imap.
  destruct (l !! i) as [x | ] eqn:Hi.
  - rewrite (lookup_seq_lt _ _ _ (lookup_lt_Some _ _ _ Hi)).
    cbn [fmap option_fmap option_map]. rewrite Hfg. reflexivity.
  - rewrite lookup_seq_ge by (apply lookup_ge_None; exact Hi). reflexivity.
Qed.

(** ** Progress lines are read back *)

Lemma expect_app w s : expect w (w ++ s) = Some s.
Proof.
  induction w as [ | a w IH ]; [ destruct s; reflexivity | ].
  cbn [app expect]. rewrite N.eqb_refl. exact IH.
Qed.

Lemma read_nat_str_nat n rest :
  starts_with_digit rest = false -> read_nat (str_nat n ++ rest) = Some (n, rest).
Proof.
  intros Hrest. unfold read_nat, str_nat. rewrite read_uint_chars by exact Hrest.
  assert (Hnil : Nat.to_uint n <> Nil).
  { rewrite <- (DecimalNat.Unsigned.of_to n) at 1. rewrite DecimalNat.Unsigned.to_of.
    apply unorm_nonnil. }
  rewrite <- (DecimalNat.Unsigned.of_to n) at 2.
  destruct (Nat.to_uint n); [ congruence | reflexivity .. ].
Qed.

Lemma parse_progress_shown (i n : nat) :
  parse_progress (lit "Saving chunk " ++ str_nat i ++ lit " with " ++ str_nat n
                  ++ lit " characters")
  = Some (i, n).
Proof.
  unfold parse_progress. rewrite expect_app. cbn [mbind option_bind].
  rewrite read_nat_str_nat by reflexivity. cbn [mbind option_bind].
  rewrite expect_app. cbn [mbind option_bind].
  rewrite read_nat_str_nat by reflexivity. cbn [mbind option_bind].
  rewrite <- (app_nil_r (lit " characters")), expect_app. reflexivity.
Qed.

(** ** Only ASCII characters are escaped *)

Lemma escape_char_non_ascii c : 128 <= c -> escape_char c = [c].
Proof. intros Hc. apply escape_char_plain; unfold QUOTE, BACKSLASH; lia. Qed.

Lemma filter_non_ascii_escape_char c :
  List.filter non_ascii (escape_char c) = List.filter non_ascii [c].
Proof.
  destruct (N.ltb_spec c 32) as [Hlt | Hge].
  - pattern c. revert c Hlt. apply below_32.
    repeat (constructor; [ reflexivity | ]). constructor.
  - destruct (N.eqb_spec c QUOTE) as [-> | Hq]; [ reflexivity | ].
    destruct (N.eqb_spec c BACKSLASH) as [-> | Hb]; [ reflexivity | ].
    rewrite escape_char_plain by assumption. reflexivity.
Qed.

Lemma filter_non_ascii_escaped s :
  List.filter non_ascii (flat_map escape_char s) = List.filter non_ascii s.
Proof.
  induction s as [ | c s IH ]; [ reflexivity | ].
  cbn [flat_map]. rewrite List.filter_app, filter_non_ascii_escape_char, IH.
  cbn [List.filter]. destruct (non_ascii c); reflexivity.
Qed.

(** ** A run without faults *)

Section Run.
Context {Document DocItem : Type}.
Variable py_str : DocItem -> pystr.
Variable convert : pystr -> outcome Document.
Variable chunker_chunk : Document -> outcome (list (DocChunk DocItem)).
Variable open_fault : option exn.
Variable write_fault : pystr -> pystr -> option exn.

Variable doc : Document.
Variable chunks : list (DocChunk DocItem).

(** The converter and the chunker return, the file opens and every
    write succeeds. *)
Hypothesis convert_returns : convert input_path = Returned doc.
Hypothesis chunker_returns : chunker_chunk doc = Returned chunks.
Hypothesis open_succeeds : open_fault = None.
Hypothesis write_succeeds : forall content s, write_fault content s = None.

Local Abbreviation line_of := (json_line py_str).
Local Abbreviation this_run := (run py_str convert chunker_chunk open_fault write_fault).

Lemma progress_line_no_newline i (chunk : DocChunk DocItem) : NEWLINE ∉ progress_line i chunk.
Proof.
  apply lit_printable_no_newline. unfold progress_line.
  repeat (apply Forall_app; split); try apply str_nat_printable;
    repeat (constructor; [ cbv; discriminate | ]); constructor.
Qed.

Lemma summary_line_no_newline (cs : list (DocChunk DocItem)) : NEWLINE ∉ summary_line cs.
Proof.
  apply lit_printable_no_newline. unfold summary_line.
  constructor; [ cbv; discriminate | ].
  repeat (apply Forall_app; split); try apply str_nat_printable;
    repeat (constructor; [ cbv; discriminate | ]); constructor.
Qed.

Lemma save_chunks_returns cs : forall i content out,
  save_chunks py_str write_fault i cs (World (Some content) out)
  = (Returned tt,
     World (Some (content ++ unlines (imap (fun j => line_of (i + j)) cs)))
           (out ++ unlines (imap (fun j => progress_line (i + j)) cs))).
Proof.
  induction cs as [ | chunk cs IH ]; intros i content out.
  - cbn. rewrite !app_nil_r. reflexivity.
  - cbn [save_chunks]. unfold mbind, prog_bind, print at 1, f_write at 1.
    cbn [out_file stdout default]. rewrite write_succeeds, IH.
    rewrite !imap_cons, Nat.add_0_r.
    rewrite (imap_ext ((fun j => line_of (i + j)) ∘ S) (fun j => line_of (S i + j)) cs)
      by (intros j c _; unfold compose; rewrite Nat.add_succ_r; reflexivity).
    rewrite (imap_ext ((fun j => progress_line (i + j)) ∘ S)
               (fun j => progress_line (S i + j)) cs)
      by (intros j c _; unfold compose; rewrite Nat.add_succ_r; reflexivity).
    unfold unlines. cbn [flat_map]. rewrite <- !app_assoc. reflexivity.
Qed.

(** The script returns, having written one line per chunk to the file
    and to the console, and the summary. *)
Lemma run_returns old_file :
  this_run old_file
  = (Returned tt,
     World (Some (unlines (imap line_of chunks)))
           (unlines (imap progress_line chunks ++ [summary_line chunks]))).
Proof.
  unfold run, main, mbind, prog_bind, call, with_open.
  rewrite convert_returns, chunker_returns, open_succeeds. cbn [stdout].
  rewrite save_chunks_returns. unfold print. cbn [out_file stdout app].
  rewrite unlines_app.
  change (unlines [summary_line chunks]) with ((summary_line chunks ++ [NEWLINE]) ++ []).
  rewrite app_nil_r. reflexivity.
Qed.
Lemma run_file_lines old_file :
  file_lines (snd (this_run old_file)) = imap line_of chunks.
Proof.
  rewrite run_returns. unfold file_lines. cbn [snd out_file default].
  apply split_lines_unlines. apply Forall_lookup. intros i line Hline.
  rewrite list_lookup_imap in Hline. destruct (chunks !! i); simplify_eq/=.
  apply json_dumps_no_newline.
Qed.

Lemma run_console_lines old_file :
  console_lines (snd (this_run old_file)) = imap progress_line chunks ++ [summary_line chunks].
Proof.
  rewrite run_returns. unfold console_lines. cbn [snd stdout].
  apply split_lines_unlines. apply Forall_app. split.
  - apply Forall_lookup. intros i line Hline.
    rewrite list_lookup_imap in Hline. destruct (chunks !! i); simplify_eq/=.
    apply progress_line_no_newline.
  - repeat constructor. apply summary_line_no_newline.
Qed.

Lemma lookup_file_line old_file i line :
  file_lines (snd (this_run old_file)) !! i = Some line <->
  exists chunk, chunks !! i = Some chunk /\ line = line_of i chunk.
Proof.
  rewrite run_file_lines, list_lookup_imap.
  destruct (chunks !! i) as [chunk | ]; cbn; split.
  - intros [= <-]. eauto.
  - intros (c & [= <-] & ->). reflexivity.
  - discriminate.
  - intros (c & [=] & _).
Qed.

Lemma json_line_loads i chunk :
  json_loads (line_of i chunk) = Some (chunk_dict py_str i chunk).
Proof. apply json_loads_dumps. Qed.


Lemma decoded_field_line i chunk key :
  decoded_field (line_of i chunk) key = py_getitem (chunk_dict py_str i chunk) key.
Proof. unfold decoded_field. rewrite json_line_loads. reflexivity. Qed.

Lemma decoded_meta_doc_items i chunk :
  decoded_meta_field (line_of i chunk) (lit "doc_items")
  = Some (PyList (map (fun ref => PyStr (py_str ref)) (doc_items (meta chunk)))).
Proof. unfold decoded_meta_field. rewrite decoded_field_line. reflexivity. Qed.

Lemma decoded_meta_headings i chunk :
  decoded_meta_field (line_of i chunk) (lit "headings")
  = Some (py_opt_strs (headings (meta chunk))).
Proof. unfold decoded_meta_field. rewrite decoded_field_line. reflexivity. Qed.

Lemma decoded_meta_captions i chunk :
  decoded_meta_field (line_of i chunk) (lit "captions")
  = Some (py_opt_strs (captions (meta chunk))).
Proof. unfold decoded_meta_field. rewrite decoded_field_line. reflexivity. Qed.

Lemma str_list_of_refs (refs : list DocItem) :
  is_str_list (PyList (map (fun ref => PyStr (py_str ref)) refs)) = true.
Proof. cbn. induction refs as [ | ref refs IH ]; [ reflexivity | exact IH ]. Qed.

(** C1, as amended. In the line written for a chunk, [doc_items] is a
    list of strings (each reference went through [str]); [headings] and
    [captions] are written as the chunker supplies them: the list of
    strings when it supplies one, [null] when it supplies [None]. *)
Theorem meta_fields_as_supplied old_file i line chunk :
  file_lines (snd (this_run old_file)) !! i = Some line ->
  chunks !! i = Some chunk ->
  holds_str_list (decoded_meta_field line (lit "doc_items")) = true /\
  decoded_meta_field line (lit "headings")
  = Some (match headings (meta chunk) with
          | Some l => PyList (map PyStr l)
          | None => PyNone
          end) /\
  decoded_meta_field line (lit "captions")
  = Some (match captions (meta chunk) with
          | Some l => PyList (map PyStr l)
          | None => PyNone
          end).
Proof.
  intros Hline Hchunk. apply lookup_file_line in Hline as (c & Hc & ->).
  assert (c = chunk) as -> by congruence.
  rewrite decoded_meta_doc_items, decoded_meta_headings, decoded_meta_captions.
  split; [ apply str_list_of_refs | split; reflexivity ].
Qed.

(** C3. The [chunk_id] fields of the output lines, read in file order,
    are 0, 1, ..., n-1, and line [i] is the record of chunk [i] of the
    chunker's sequence. *)
Theorem chunk_ids_contiguous old_file :
  map (fun line => decoded_field line (lit "chunk_id")) (file_lines (snd (this_run old_file)))
  = map (fun i => Some (PyInt (Z.of_nat i))) (seq 0 (length chunks)) /\
  forall i line,
    file_lines (snd (this_run old_file)) !! i = Some line ->
    exists chunk,
      chunks !! i = Some chunk /\
      json_loads line = Some (chunk_dict py_str i chunk).
Proof.
  split.
  - rewrite run_file_lines. apply map_imap_seq.
    intros i chunk. rewrite decoded_field_line. reflexivity.
  - intros i line Hline. apply lookup_file_line in Hline as (chunk & Hchunk & ->).
    exists chunk. split; [ exact Hchunk | apply json_line_loads ].
Qed.

(** C4. Every output line parses as a JSON object with exactly the three
    members [chunk_id], [text] and [meta], where [chunk_id] is an integer
    and [text] a string. *)
Theorem lines_are_records old_file :
  Forall
    (fun line =>
       exists (z : Z) (t : pystr) (m : pyval),
         json_loads line
         = Some (PyDict [ (lit "chunk_id", PyInt z); (lit "text", PyStr t); (lit "meta", m) ]))
    (file_lines (snd (this_run old_file))).
Proof.
  apply Forall_lookup. intros i line Hline.
  apply lookup_file_line in Hline as (chunk & _ & ->).
  rewrite json_line_loads. unfold chunk_dict. eauto.
Qed.

(** C10. In every output record, [doc_items] is a list with one string
    per reference of the chunk, whatever the type of the references. *)
Theorem doc_items_are_strings old_file i line chunk :
  file_lines (snd (this_run old_file)) !! i = Some line ->
  chunks !! i = Some chunk ->
  exists items,
    decoded_meta_field line (lit "doc_items") = Some (PyList items) /\
    length items = length (doc_items (meta chunk)) /\
    Forall (fun v => exists s, v = PyStr s) items.
Proof.
  intros Hline Hchunk. apply lookup_file_line in Hline as (c & Hc & ->).
  assert (c = chunk) as -> by congruence.
  rewrite decoded_meta_doc_items. eexists. split; [ reflexivity | ].
  split; [ apply length_map | ].
  apply Forall_fmap, Forall_true. intros ref. cbn. eauto.
Qed.

Lemma json_line_text i chunk :
  exists post,
    line_of i chunk
    = (lit "{" ++ encode_basestring (lit "chunk_id") ++ lit ": " ++ repr_int (Z.of_nat i)
       ++ lit ", " ++ encode_basestring (lit "text") ++ lit ": ")
      ++ [QUOTE] ++ flat_map escape_char (text chunk) ++ [QUOTE] ++ post.
Proof.
  unfold json_line, chunk_dict.
  change (json_dumps (PyDict ?d)) with (lit "{" ++ join_comma (map dumps_member d) ++ lit "}").
  cbn [map]. rewrite !join_comma_cons2. cbn [join_comma].
  unfold dumps_member at 1 2. cbn [fst snd json_dumps].
  exists (lit ", " ++ dumps_member (lit "meta",
            PyDict
              [ (lit "doc_items",
                  PyList (map (fun ref => PyStr (py_str ref)) (doc_items (meta chunk))));
                (lit "headings", py_opt_strs (headings (meta chunk)));
                (lit "captions", py_opt_strs (captions (meta chunk))) ]) ++ lit "}").
  change (encode_basestring (text chunk))
    with ([QUOTE] ++ flat_map escape_char (text chunk) ++ [QUOTE]).
  generalize (encode_basestring (lit "chunk_id")) (encode_basestring (lit "text"))
    (repr_int (Z.of_nat i)) (flat_map escape_char (text chunk)).
  intros a b c d. generalize (dumps_member (lit "meta",
            PyDict
              [ (lit "doc_items",
                  PyList (map (fun ref => PyStr (py_str ref)) (doc_items (meta chunk))));
                (lit "headings", py_opt_strs (headings (meta chunk)));
                (lit "captions", py_opt_strs (captions (meta chunk))) ])).
  intros e. repeat first [ rewrite <- !app_assoc | progress cbn [app] ]. reflexivity.
Qed.

(** C5. The file is the records one after the other, each followed by
    one newline; a record holds no newline of its own, is one JSON
    object, and carries the text between quotes with every code point
    outside ASCII copied as it is: the code points outside ASCII of the
    encoded text are those of the text, in the same order. *)
Theorem json_lines_format old_file :
  out_file (snd (this_run old_file)) = Some (unlines (file_lines (snd (this_run old_file)))) /\
  forall i chunk,
    chunks !! i = Some chunk ->
    exists line,
      file_lines (snd (this_run old_file)) !! i = Some line /\
      (NEWLINE ∉ line) /\
      (exists d, json_loads line = Some (PyDict d)) /\
      (exists pre post,
          line = pre ++ [QUOTE] ++ flat_map escape_char (text chunk) ++ [QUOTE] ++ post) /\
      Forall (fun c => 128 <= c -> escape_char c = [c]) (text chunk) /\
      List.filter non_ascii (flat_map escape_char (text chunk))
      = List.filter non_ascii (text chunk).
Proof.
  split.
  - rewrite run_file_lines. rewrite run_returns. reflexivity.
  - intros i chunk Hchunk. exists (line_of i chunk).
    split; [ apply lookup_file_line; eauto | ].
    split; [ apply json_dumps_no_newline | ].
    split; [ rewrite json_line_loads; unfold chunk_dict; eauto | ].
    split; [ destruct (json_line_text i chunk) as [post Hpost]; eauto | ].
    split; [ apply Forall_true; intros c; apply escape_char_non_ascii | ].
    apply filter_non_ascii_escaped.
Qed.

(** C6. Decoding the line written for a chunk gives a text whose length
    is the character count shown in the progress line of that chunk. *)
Theorem decoded_text_length old_file i line shown :
  file_lines (snd (this_run old_file)) !! i = Some line ->
  console_lines (snd (this_run old_file)) !! i = Some shown ->
  exists t,
    decoded_field line (lit "text") = Some (PyStr t) /\
    parse_progress shown = Some (i, length t).
Proof.
  intros Hline Hshown. apply lookup_file_line in Hline as (chunk & Hchunk & ->).
  rewrite run_console_lines in Hshown.
  rewrite lookup_app_l in Hshown
    by (rewrite length_imap; eapply lookup_lt_Some; exact Hchunk).
  rewrite list_lookup_imap, Hchunk in Hshown. injection Hshown as <-.
  exists (text chunk). split; [ rewrite decoded_field_line; reflexivity | ].
  apply parse_progress_shown.
Qed.

End Run.

(** ** Runs with faults *)

Section Faults.
Context {Document DocItem : Type}.
Variable py_str : DocItem -> pystr.
Variable convert : pystr -> outcome Document.
Variable chunker_chunk : Document -> outcome (list (DocChunk DocItem)).
Variable open_fault : option exn.
Variable write_fault : pystr -> pystr -> option exn.

Local Abbreviation line_of := (json_line py_str).
Local Abbreviation this_run := (run py_str convert chunker_chunk open_fault write_fault).

(** The loop stops at the first write that raises. *)
Lemma save_chunks_raises cs : forall i content out k chunk e,
  cs !! k = Some chunk ->
  (forall j c, (j < k)%nat -> cs !! j = Some c ->
     write_fault (content ++ unlines (take j (imap (fun j => line_of (i + j)) cs)))
                 (line_of (i + j) c ++ [NEWLINE]) = None) ->
  write_fault (content ++ unlines (take k (imap (fun j => line_of (i + j)) cs)))
              (line_of (i + k) chunk ++ [NEWLINE]) = Some e ->
  fst (save_chunks py_str write_fault i cs (World (Some content) out)) = Raised e.
Proof.
  induction cs as [ | c0 cs IH ]; intros i content out k chunk e Hk Hbefore Hfail;
    [ discriminate | ].
  cbn [save_chunks]. unfold mbind, prog_bind, print at 1, f_write at 1.
  cbn [out_file stdout default]. unfold id.
  destruct k as [ | k ].
  - cbn in Hk. injection Hk as ->.
    cbn [take unlines flat_map] in Hfail. rewrite app_nil_r, Nat.add_0_r in Hfail.
    rewrite Hfail. reflexivity.
  - pose proof (Hbefore 0%nat c0 ltac:(lia) eq_refl) as Hfirst.
    cbn [take unlines flat_map] in Hfirst. rewrite app_nil_r, Nat.add_0_r in Hfirst.
    rewrite Hfirst.
    assert (Hshift : forall n,
              content ++ unlines (take (S n) (imap (fun j => line_of (i + j)) (c0 :: cs)))
              = (content ++ line_of i c0 ++ [NEWLINE])
                ++ unlines (take n (imap (fun j => line_of (S i + j)) cs))).
    { intros n. rewrite imap_cons, Nat.add_0_r.
      rewrite (imap_ext ((fun j => line_of (i + j)) ∘ S) (fun j => line_of (S i + j)) cs)
        by (intros j c _; unfold compose; rewrite Nat.add_succ_r; reflexivity).
      cbn [take]. unfold unlines. cbn [flat_map]. rewrite <- !app_assoc. reflexivity. }
    apply (IH (S i) _ _ k chunk e Hk).
    + intros j c Hj Hc. rewrite <- Hshift.
      replace (S i + j)%nat with (i + S j)%nat by lia.
      apply Hbefore; [ lia | exact Hc ].
    + rewrite <- Hshift. replace (S i + k)%nat with (i + S k)%nat by lia. exact Hfail.
Qed.

(** C8. Nothing catches an exception: when the conversion, the chunking,
    the opening of the output file or a write raises, the script ends
    with that exception; when it is the conversion that raises (as for a
    missing input file), the output file is as it was before the run
    (not created, not written) and nothing was printed. *)
Theorem exceptions_propagate e old_file :
  stage_raises py_str convert chunker_chunk open_fault write_fault e ->
  fst (this_run old_file) = Raised e /\
  (convert input_path = Raised e -> snd (this_run old_file) = World old_file []).
Proof.
  intros Hstage. split.
  - unfold run, main, mbind, prog_bind, call, with_open.
    destruct Hstage as
      [ Hconv | doc Hconv Hchunk | doc chunks Hconv Hchunk Hopen
      | doc chunks k chunk Hconv Hchunk Hopen Hk Hbefore Hfail ].
    + rewrite Hconv. reflexivity.
    + rewrite Hconv, Hchunk. reflexivity.
    + rewrite Hconv, Hchunk, Hopen. reflexivity.
    + rewrite Hconv, Hchunk, Hopen. cbn [stdout].
      pose proof (save_chunks_raises chunks 0 [] [] k chunk e Hk) as Hloop.
      cbn [app Nat.add] in Hloop. specialize (Hloop Hbefore Hfail).
      destruct (save_chunks py_str write_fault 0 chunks (World (Some []) []))
        as [[ [] | e' ] w']; cbn in Hloop; [ discriminate | ].
      injection Hloop as ->. reflexivity.
  - intros Hconv. unfold run, main, mbind, prog_bind, call. rewrite Hconv. reflexivity.
Qed.

Lemma save_chunks_ext (write_fault' : pystr -> pystr -> option exn) :
  (forall content s, write_fault content s = write_fault' content s) ->
  forall cs i w,
    save_chunks py_str write_fault i cs w = save_chunks py_str write_fault' i cs w.
Proof.
  intros Hext. induction cs as [ | c cs IH ]; intros i w; [ reflexivity | ].
  cbn [save_chunks]. unfold mbind, prog_bind, print at 1 2, f_write at 1 2.
  rewrite Hext. destruct (write_fault' _ _); [ reflexivity | apply IH ].
Qed.
End Faults.

(** C9. Two runs in which the chunker returns the same chunks, and in
    which the file system behaves alike (the file opens, a write raises
    in one exactly when it raises in the other), end alike: same outcome,
    same output file, same console output, whatever the converter, the
    document and the earlier content of the output file were. *)
Theorem output_determined_by_chunks
    {Document1 Document2 DocItem : Type} (py_str : DocItem -> pystr)
    (convert1 : pystr -> outcome Document1)
    (chunker1 : Document1 -> outcome (list (DocChunk DocItem)))
    (convert2 : pystr -> outcome Document2)
    (chunker2 : Document2 -> outcome (list (DocChunk DocItem)))
    (write_fault1 write_fault2 : pystr -> pystr -> option exn)
    (doc1 : Document1) (doc2 : Document2) (chunks : list (DocChunk DocItem))
    (old_file1 old_file2 : option pystr) :
  convert1 input_path = Returned doc1 -> chunker1 doc1 = Returned chunks ->
  convert2 input_path = Returned doc2 -> chunker2 doc2 = Returned chunks ->
  (forall content s, write_fault1 content s = write_fault2 content s) ->
  run py_str convert1 chunker1 None write_fault1 old_file1
  = run py_str convert2 chunker2 None write_fault2 old_file2.
Proof.
  intros Hc1 Hk1 Hc2 Hk2 Hext.
  unfold run, main, mbind, prog_bind, call, with_open.
  rewrite Hc1, Hk1, Hc2, Hk2. cbn [stdout].
  rewrite (save_chunks_ext py_str write_fault1 write_fault2 Hext). reflexivity.
Qed.

(** ** The statements at the small run *)

Example disk_full_run_ex :
  disk_full_run
  = (Raised (PyExc "OSError"),
     World (Some (demo_line0 ++ [NEWLINE]))
           (lit "Saving chunk 0 with 7 characters" ++ [NEWLINE]
            ++ lit "Saving chunk 1 with 6 characters" ++ [NEWLINE])).
Proof. vm_compute. reflexivity. Qed.


(** C1, as stated, fails: in the run over [demo_chunks], which returns,
    the first line has [captions] null and the second has [headings]
    null, so not every line has its three metadata fields as lists of
    strings. *)
Lemma meta_fields_not_all_string_lists :
  fst demo_run = Returned tt /\
  forallb meta_string_lists (file_lines (snd demo_run)) = false /\
  decoded_meta_field demo_line0 (lit "captions") = Some PyNone.
Proof. repeat split; vm_compute; reflexivity. Qed.

(** The first line of the small run: strings for the references, the
    heading as supplied, [null] for the missing captions. *)
Lemma meta_fields_as_supplied_demo :
  holds_str_list (decoded_meta_field demo_line0 (lit "doc_items")) = true /\
  decoded_meta_field demo_line0 (lit "headings") = Some (PyList [PyStr (lit "Intro")]) /\
  decoded_meta_field demo_line0 (lit "captions") = Some PyNone.
Proof.
  apply (meta_fields_as_supplied demo_str demo_convert demo_chunker None no_write_fault
           tt demo_chunks eq_refl eq_refl eq_refl (fun _ _ => eq_refl) None 0 demo_line0 demo_chunk0);
    reflexivity.
Defined.

(** The small run numbers its lines 0 and 1. *)
Lemma chunk_ids_contiguous_demo :
  map (fun line => decoded_field line (lit "chunk_id")) (file_lines (snd demo_run))
  = [Some (PyInt 0); Some (PyInt 1)] /\
  forall i line,
    file_lines (snd demo_run) !! i = Some line ->
    exists chunk,
      demo_chunks !! i = Some chunk /\ json_loads line = Some (chunk_dict demo_str i chunk).
Proof.
  apply (chunk_ids_contiguous demo_str demo_convert demo_chunker None no_write_fault
           tt demo_chunks eq_refl eq_refl eq_refl (fun _ _ => eq_refl) None).
Defined.

(** The lines of the small run are records. *)
Lemma lines_are_records_demo :
  Forall
    (fun line =>
       exists (z : Z) (t : pystr) (m : pyval),
         json_loads line
         = Some (PyDict [ (lit "chunk_id", PyInt z); (lit "text", PyStr t); (lit "meta", m) ]))
    (file_lines (snd demo_run)).
Proof.
  apply (lines_are_records demo_str demo_convert demo_chunker None no_write_fault
           tt demo_chunks eq_refl eq_refl eq_refl (fun _ _ => eq_refl) None).
Defined.

(** The file of the small run, line by line. *)
Lemma json_lines_format_demo :
  out_file (snd demo_run) = Some (unlines (file_lines (snd demo_run))) /\
  forall i chunk,
    demo_chunks !! i = Some chunk ->
    exists line,
      file_lines (snd demo_run) !! i = Some line /\
      (NEWLINE ∉ line) /\
      (exists d, json_loads line = Some (PyDict d)) /\
      (exists pre post,
          line = pre ++ [QUOTE] ++ flat_map escape_char (text chunk) ++ [QUOTE] ++ post) /\
      Forall (fun c => 128 <= c -> escape_char c = [c]) (text chunk) /\
      List.filter non_ascii (flat_map escape_char (text chunk))
      = List.filter non_ascii (text chunk).
Proof.
  apply (json_lines_format demo_str demo_convert demo_chunker None no_write_fault
           tt demo_chunks eq_refl eq_refl eq_refl (fun _ _ => eq_refl) None).
Defined.

(** The first chunk of the small run: seven characters shown, seven
    characters read back. *)
Lemma decoded_text_length_demo :
  exists t,
    decoded_field demo_line0 (lit "text") = Some (PyStr t) /\
    parse_progress demo_progress0 = Some (0%nat, length t).
Proof.
  apply (decoded_text_length demo_str demo_convert demo_chunker None no_write_fault
           tt demo_chunks eq_refl eq_refl eq_refl (fun _ _ => eq_refl) None 0 demo_line0
           demo_progress0); reflexivity.
Defined.


(** With a missing input file the run ends with the converter's
    exception and leaves the stale output file alone. *)
Lemma exceptions_propagate_missing_input :
  fst (missing_run (Some (lit "stale"))) = Raised (PyExc "FileNotFoundError") /\
  (missing_convert input_path = Raised (PyExc "FileNotFoundError") ->
   snd (missing_run (Some (lit "stale"))) = World (Some (lit "stale")) []).
Proof.
  apply (exceptions_propagate demo_str missing_convert demo_chunker None no_write_fault).
  apply convert_raises. reflexivity.
Defined.

(** Another converter, another stale file, the same chunks: the same
    run. *)
Lemma output_determined_by_chunks_demo : demo_run = other_run.
Proof.
  apply (output_determined_by_chunks demo_str demo_convert demo_chunker other_convert
           other_chunker no_write_fault no_write_fault tt 7%nat demo_chunks None
           (Some (lit "stale"))); intros; reflexivity.
Defined.

(** The references of the first chunk of the small run, as strings. *)
Lemma doc_items_are_strings_demo :
  exists items,
    decoded_meta_field demo_line0 (lit "doc_items") = Some (PyList items) /\
    length items = length (doc_items (meta demo_chunk0)) /\
    Forall (fun v => exists s, v = PyStr s) items.
Proof.
  apply (doc_items_are_strings demo_str demo_convert demo_chunker None no_write_fault
           tt demo_chunks eq_refl eq_refl eq_refl (fun _ _ => eq_refl) None 0 demo_line0
           demo_chunk0); reflexivity.
Defined.

(** * More about the script *)

(** ** Any run that reaches the loop *)

Section Loop.
Context {Document DocItem : Type}.
Variable py_str : DocItem -> pystr.
Variable convert : pystr -> outcome Document.
Variable chunker_chunk : Document -> outcome (list (DocChunk DocItem)).
Variable open_fault : option exn.
Variable write_fault : pystr -> pystr -> option exn.

Local Abbreviation line_of := (json_line py_str).
Local Abbreviation this_run := (run py_str convert chunker_chunk open_fault write_fault).

Lemma save_chunks_cons i c cs content out :
  save_chunks py_str write_fault i (c :: cs) (World (Some content) out)
  = match write_fault content (line_of i c ++ [NEWLINE]) with
    | Some e => (Raised e, World (Some content) (out ++ progress_line i c ++ [NEWLINE]))
    | None =>
        save_chunks py_str write_fault (S i) cs
          (World (Some (content ++ line_of i c ++ [NEWLINE]))
                 (out ++ progress_line i c ++ [NEWLINE]))
    end.
Proof.
  cbn [save_chunks]. unfold mbind, prog_bind, print at 1, f_write at 1.
  cbn [out_file stdout default]. unfold id.
  destruct (write_fault content (line_of i c ++ [NEWLINE])); reflexivity.
Qed.

(** Whatever the writes do, the loop leaves the first [m] records in the
    file; it returns after all of them, or raises at record [m], whose
    progress line is already on the console. *)
Lemma save_chunks_prefix cs : forall i content out o w,
  save_chunks py_str write_fault i cs (World (Some content) out) = (o, w) ->
  exists m,
    (m <= length cs)%nat /\
    out_file w = Some (content ++ unlines (take m (imap (fun j => line_of (i + j)) cs))) /\
    ((o = Returned tt /\ m = length cs /\
      stdout w = out ++ unlines (imap (fun j => progress_line (i + j)) cs))
     \/
     (exists e,
        o = Raised e /\ (m < length cs)%nat /\
        stdout w = out ++ unlines (take (S m) (imap (fun j => progress_line (i + j)) cs)))).
Proof.
  induction cs as [ | c cs IH ]; intros i content out o w Hrun.
  - cbn in Hrun. injection Hrun as <- <-. exists 0%nat. cbn. rewrite !app_nil_r.
    split; [ lia | ]. split; [ reflexivity | ]. left. auto.
  - rewrite save_chunks_cons in Hrun. rewrite !imap_cons, Nat.add_0_r.
    rewrite (imap_ext ((fun j => line_of (i + j)) ∘ S) (fun j => line_of (S i + j)) cs)
      by (intros j x _; unfold compose; rewrite Nat.add_succ_r; reflexivity).
    rewrite (imap_ext ((fun j => progress_line (i + j)) ∘ S)
               (fun j => progress_line (S i + j)) cs)
      by (intros j x _; unfold compose; rewrite Nat.add_succ_r; reflexivity).
    destruct (write_fault content (line_of i c ++ [NEWLINE])) as [e | ].
    + injection Hrun as <- <-. exists 0%nat. cbn [out_file stdout take length].
      split; [ lia | ]. split; [ cbn; rewrite app_nil_r; reflexivity | ].
      right. exists e. split; [ reflexivity | ]. split; [ lia | ].
      unfold unlines. cbn [flat_map]. rewrite app_nil_r. reflexivity.
    + apply IH in Hrun as (m & Hm & Hfile & Hcases).
      exists (S m). cbn [length take]. split; [ lia | ].
      split.
      { refine (eq_trans Hfile _).
        unfold unlines. cbn [flat_map]. rewrite <- !app_assoc. reflexivity. }
      destruct Hcases as [(Hret & -> & Hout) | (e & Hraise & Hlt & Hout)].
      * left. split; [ exact Hret | ]. split; [ reflexivity | ].
        refine (eq_trans Hout _).
        unfold unlines. cbn [flat_map]. rewrite <- !app_assoc. reflexivity.
      * right. exists e. split; [ exact Hraise | ]. split; [ lia | ].
        refine (eq_trans Hout _).
        unfold unlines. cbn [flat_map]. rewrite <- !app_assoc. reflexivity.
Qed.

Lemma run_prefix doc chunks old_file :
  convert input_path = Returned doc ->
  chunker_chunk doc = Returned chunks ->
  open_fault = None ->
  exists m,
    (m <= length chunks)%nat /\
    out_file (snd (this_run old_file)) = Some (unlines (take m (imap line_of chunks))) /\
    ((fst (this_run old_file) = Returned tt /\ m = length chunks /\
      stdout (snd (this_run old_file))
      = unlines (imap progress_line chunks ++ [summary_line chunks]))
     \/
     (exists e,
        fst (this_run old_file) = Raised e /\ (m < length chunks)%nat /\
        stdout (snd (this_run old_file)) = unlines (take (S m) (imap progress_line chunks)))).
Proof.
  intros Hconv Hchunk Hopen.
  unfold run, main, mbind, prog_bind, call, with_open.
  rewrite Hconv, Hchunk, Hopen. cbn [stdout].
  destruct (save_chunks py_str write_fault 0 chunks (World (Some []) [])) as [o w] eqn:Hrun.
  apply save_chunks_prefix in Hrun as (m & Hm & Hfile & Hcases).
  cbn [app Nat.add] in Hfile, Hcases.
  exists m. split; [ exact Hm | ].
  destruct Hcases as [(-> & -> & Hout) | (e & -> & Hlt & Hout)].
  - unfold print. cbn [fst snd out_file stdout].
    split; [ exact Hfile | ]. left. split; [ reflexivity | ]. split; [ reflexivity | ].
    rewrite Hout, unlines_app. unfold unlines at 3. cbn [flat_map].
    rewrite app_nil_r. reflexivity.
  - cbn [fst snd]. split; [ exact Hfile | ]. right. exists e. auto.
Qed.

Lemma take_imap_no_newline {A : Type} (f : nat -> A -> pystr) (l : list A) m :
  (forall i x, NEWLINE ∉ f i x) -> Forall (fun line => NEWLINE ∉ line) (take m (imap f l)).
Proof.
  intros Hf. apply Forall_take, Forall_lookup. intros i line Hline.
  rewrite list_lookup_imap in Hline. destruct (l !! i); simplify_eq/=. apply Hf.
Qed.

Lemma progress_line_clean i (chunk : DocChunk DocItem) : NEWLINE ∉ progress_line i chunk.
Proof.
  apply lit_printable_no_newline. unfold progress_line.
  repeat (apply Forall_app; split); try apply str_nat_printable;
    repeat (constructor; [ cbv; discriminate | ]); constructor.
Qed.

Lemma summary_line_clean (cs : list (DocChunk DocItem)) : NEWLINE ∉ summary_line cs.
Proof.
  apply lit_printable_no_newline. unfold summary_line.
  constructor; [ cbv; discriminate | ].
  repeat (apply Forall_app; split); try apply str_nat_printable;
    repeat (constructor; [ cbv; discriminate | ]); constructor.
Qed.

(** The lines of the file and of the console after a run that reached the
    loop. *)
Lemma run_prefix_lines doc chunks old_file :
  convert input_path = Returned doc ->
  chunker_chunk doc = Returned chunks ->
  open_fault = None ->
  exists m,
    (m <= length chunks)%nat /\
    file_lines (snd (this_run old_file)) = take m (imap line_of chunks) /\
    ((fst (this_run old_file) = Returned tt /\ m = length chunks /\
      console_lines (snd (this_run old_file))
      = imap progress_line chunks ++ [summary_line chunks])
     \/
     (exists e,
        fst (this_run old_file) = Raised e /\ (m < length chunks)%nat /\
        console_lines (snd (this_run old_file)) = take (S m) (imap progress_line chunks))).
Proof.
  intros Hconv Hchunk Hopen.
  destruct (run_prefix doc chunks old_file Hconv Hchunk Hopen) as (m & Hm & Hfile & Hcases).
  exists m. split; [ exact Hm | ]. split.
  - unfold file_lines. rewrite Hfile. cbn [default]. apply split_lines_unlines.
    apply take_imap_no_newline. intros i x. apply json_dumps_no_newline.
  - destruct Hcases as [(Hret & -> & Hout) | (e & Hraise & Hlt & Hout)].
    + left. split; [ exact Hret | ]. split; [ reflexivity | ].
      unfold console_lines. rewrite Hout. apply split_lines_unlines.
      apply Forall_app. split.
      * rewrite <- (firstn_all (imap progress_line chunks)).
        apply take_imap_no_newline. intros i x. apply progress_line_clean.
      * repeat constructor. apply summary_line_clean.
    + right. exists e. split; [ exact Hraise | ]. split; [ exact Hlt | ].
      unfold console_lines. rewrite Hout. apply split_lines_unlines.
      apply take_imap_no_newline. intros i x. apply progress_line_clean.
Qed.


(** X2. The summary line is printed only by a run that returns: whatever
    the converter, the chunker and the file system do, a console line that
    starts with the check mark means that the script returned. *)
Theorem summary_only_on_success old_file line :
  line ∈ console_lines (snd (this_run old_file)) ->
  head line = Some CHECK_MARK ->
  fst (this_run old_file) = Returned tt.
Proof.
  intros Hin Hhead.
  destruct (convert input_path) as [doc | e] eqn:Hconv.
  2:{ exfalso. revert Hin. unfold run, main, mbind, prog_bind, call. rewrite Hconv.
      cbn. apply not_elem_of_nil. }
  destruct (chunker_chunk doc) as [chunks | e] eqn:Hchunk.
  2:{ exfalso. revert Hin. unfold run, main, mbind, prog_bind, call. rewrite Hconv, Hchunk.
      cbn. apply not_elem_of_nil. }
  assert (Hcases : (exists e, open_fault = Some e) \/ open_fault = None)
    by (destruct open_fault; eauto).
  destruct Hcases as [[e Hopen] | Hopen].
  { exfalso. revert Hin. unfold run, main, mbind, prog_bind, call, with_open.
    rewrite Hconv, Hchunk, Hopen. cbn. apply not_elem_of_nil. }
  destruct (run_prefix_lines doc chunks old_file Hconv Hchunk Hopen)
    as (m & _ & _ & [(Hret & _) | (e & _ & _ & Hcons)]); [ exact Hret | ].
  exfalso. rewrite Hcons in Hin. apply list_elem_of_lookup in Hin as [k Hk].
  rewrite lookup_take_Some in Hk. destruct Hk as [Hk _].
  rewrite list_lookup_imap in Hk. destruct (chunks !! k) as [c | ]; simplify_eq/=.
Qed.

(** X3. The output file is opened only after the chunks are there: when
    the chunker raises, or the opening of the file itself raises, the run
    ends with that exception, the earlier output file is as it was and
    nothing was printed. *)
Theorem early_failure_touches_nothing doc old_file e :
  convert input_path = Returned doc ->
  chunker_chunk doc = Raised e
  \/ (exists chunks, chunker_chunk doc = Returned chunks /\ open_fault = Some e) ->
  this_run old_file = (Raised e, World old_file []).
Proof.
  intros Hconv [Hchunk | (chunks & Hchunk & Hopen)];
    unfold run, main, mbind, prog_bind, call, with_open; rewrite Hconv, Hchunk.
  - reflexivity.
  - rewrite Hopen. reflexivity.
Qed.

End Loop.

(** ** The encoder, read back *)

Lemma json_dumps_inj v1 v2 : json_dumps v1 = json_dumps v2 -> v1 = v2.
Proof.
  intros Heq. pose proof (json_loads_dumps v1) as H1.
  rewrite Heq, json_loads_dumps in H1. congruence.
Qed.


(** ** The index, in the file as on the console *)

Lemma of_lu_nat_N d :
  DecimalNat.Unsigned.of_lu d = N.to_nat (DecimalPos.Unsigned.of_lu d).
Proof.
  induction d as [ | d IH | d IH | d IH | d IH | d IH | d IH | d IH | d IH | d IH | d IH ];
    [ reflexivity | .. ];
    cbn [DecimalNat.Unsigned.of_lu DecimalPos.Unsigned.of_lu];
    rewrite ?N2Nat.inj_add, N2Nat.inj_mul, <- IH; reflexivity.
Qed.

Lemma nat_to_uint_N n : Nat.to_uint n = N.to_uint (N.of_nat n).
Proof.
  assert (Ha : unorm (Nat.to_uint n) = Nat.to_uint n).
  { rewrite <- DecimalNat.Unsigned.to_of, DecimalNat.Unsigned.of_to. reflexivity. }
  assert (Hb : unorm (N.to_uint (N.of_nat n)) = N.to_uint (N.of_nat n)).
  { rewrite <- DecimalN.Unsigned.to_of, DecimalN.Unsigned.of_to. reflexivity. }
  rewrite <- Ha, <- Hb. apply DecimalNat.Unsigned.of_inj.
  rewrite DecimalNat.Unsigned.of_to.
  rewrite DecimalNat.Unsigned.of_uint_alt, of_lu_nat_N, <- DecimalPos.Unsigned.of_uint_alt.
  change (Pos.of_uint (N.to_uint (N.of_nat n))) with (N.of_uint (N.to_uint (N.of_nat n))).
  rewrite DecimalN.Unsigned.of_to. symmetry. apply Nat2N.id.
Qed.

Lemma repr_int_of_nat n : repr_int (Z.of_nat n) = str_nat n.
Proof.
  unfold repr_int, str_nat. rewrite nat_to_uint_N.
  destruct n as [ | n ]; reflexivity.
Qed.

Lemma flat_map_escape_plain s :
  forallb plain_char s = true -> flat_map escape_char s = s.
Proof.
  induction s as [ | c s IH ]; [ reflexivity | ].
  cbn [forallb flat_map]. intros [Hc Hs]%andb_prop.
  unfold plain_char in Hc. apply andb_prop in Hc as [[Hge Hq]%andb_prop Hb].
  apply N.leb_le in Hge. apply negb_true_iff, N.eqb_neq in Hq, Hb.
  rewrite escape_char_plain by assumption. rewrite IH by assumption. reflexivity.
Qed.

(** ** More about the lines of the file *)

Section Lines.
Context {Document DocItem : Type}.
Variable py_str : DocItem -> pystr.
Variable convert : pystr -> outcome Document.
Variable chunker_chunk : Document -> outcome (list (DocChunk DocItem)).
Variable open_fault : option exn.
Variable write_fault : pystr -> pystr -> option exn.

Variable doc : Document.
Variable chunks : list (DocChunk DocItem).
Hypothesis convert_returns : convert input_path = Returned doc.
Hypothesis chunker_returns : chunker_chunk doc = Returned chunks.
Hypothesis open_succeeds : open_fault = None.

Local Abbreviation line_of := (json_line py_str).
Local Abbreviation this_run := (run py_str convert chunker_chunk open_fault write_fault).

(** X6. A record starts with its [chunk_id], written as the same numeral
    as the index in the progress line, and a text without control
    character, quote or backslash stands in the record as it is, between
    quotes. *)
Theorem plain_text_verbatim i (chunk : DocChunk DocItem) :
  forallb plain_char (text chunk) = true ->
  exists rest,
    json_line py_str i chunk
    = lit "{" ++ [QUOTE] ++ lit "chunk_id" ++ [QUOTE] ++ lit ": " ++ str_nat i ++ lit ", "
      ++ [QUOTE] ++ lit "text" ++ [QUOTE] ++ lit ": "
      ++ [QUOTE] ++ text chunk ++ [QUOTE] ++ rest.
Proof.
  intros Hplain. destruct (json_line_text py_str i chunk) as [post Hpost].
  exists post. rewrite Hpost, repr_int_of_nat, (flat_map_escape_plain _ Hplain).
  repeat first [ rewrite <- !app_assoc | progress cbn [app] ]. reflexivity.
Qed.

Lemma imap_lines_NoDup : NoDup (imap line_of chunks).
Proof.
  apply NoDup_alt. intros i j line Hi Hj.
  rewrite list_lookup_imap in Hi, Hj.
  destruct (chunks !! i) as [ci | ]; [ | discriminate ].
  destruct (chunks !! j) as [cj | ]; [ | discriminate ].
  change (Some (line_of i ci) = Some line) in Hi.
  change (Some (line_of j cj) = Some line) in Hj.
  assert (Heq : json_dumps (chunk_dict py_str i ci) = json_dumps (chunk_dict py_str j cj))
    by (unfold json_line in Hi, Hj; congruence).
  apply json_dumps_inj in Heq. unfold chunk_dict in Heq.
  assert (Hij : Z.of_nat i = Z.of_nat j) by congruence. lia.
Qed.

(** X7. No two lines of the output file are equal, even when two chunks
    have the same text and metadata, and even when the run was cut short
    by a failing write: every line carries its own [chunk_id]. *)
Theorem lines_pairwise_distinct old_file :
  NoDup (file_lines (snd (this_run old_file))).
Proof.
  destruct (run_prefix_lines py_str convert chunker_chunk open_fault write_fault
              doc chunks old_file convert_returns chunker_returns open_succeeds)
    as (m & _ & -> & _).
  eapply sublist_NoDup; [ apply imap_lines_NoDup | apply sublist_take ].
Qed.

(** X8. No line of the output file holds a control character (a code
    point below 0x20: tab, carriage return, NUL, ...), whatever the texts
    and the metadata of the chunks hold; the only control characters of
    the file are the newlines that end its lines. *)
Theorem lines_hold_no_control_character old_file :
  Forall (Forall (fun c => 32 <= c)) (file_lines (snd (this_run old_file))).
Proof.
  destruct (run_prefix_lines py_str convert chunker_chunk open_fault write_fault
              doc chunks old_file convert_returns chunker_returns open_succeeds)
    as (m & _ & -> & _).
  apply Forall_take, Forall_lookup. intros i line Hline.
  rewrite list_lookup_imap in Hline. destruct (chunks !! i); simplify_eq/=.
  apply json_dumps_printable.
Qed.
End Lines.

(** ** The file as a whole *)

Lemma json_loads_one_line v : json_loads (json_dumps v ++ [NEWLINE]) = Some v.
Proof.
  unfold json_loads. rewrite skip_ws_dumps.
  rewrite parse_value_dumps; [ reflexivity | | reflexivity ].
  pose proof (size_le_length v). rewrite length_app. lia.
Qed.

Lemma json_loads_two_lines v1 v2 rest :
  json_loads (json_dumps v1 ++ NEWLINE :: json_dumps v2 ++ rest) = None.
Proof.
  unfold json_loads. rewrite skip_ws_dumps.
  rewrite parse_value_dumps; [ | | reflexivity ].
  - change (skip_ws (NEWLINE :: json_dumps v2 ++ rest)) with (skip_ws (json_dumps v2 ++ rest)).
    rewrite skip_ws_dumps. pose proof (json_dumps_head v2 rest) as Hhead.
    destruct (json_dumps v2 ++ rest); [ discriminate | reflexivity ].
  - pose proof (size_le_length v1). rewrite length_app. lia.
Qed.

Section WholeFile.
Context {Document DocItem : Type}.
Variable py_str : DocItem -> pystr.
Variable convert : pystr -> outcome Document.
Variable chunker_chunk : Document -> outcome (list (DocChunk DocItem)).
Variable open_fault : option exn.
Variable write_fault : pystr -> pystr -> option exn.

Variable doc : Document.
Variable chunks : list (DocChunk DocItem).
Hypothesis convert_returns : convert input_path = Returned doc.
Hypothesis chunker_returns : chunker_chunk doc = Returned chunks.
Hypothesis open_succeeds : open_fault = None.
Hypothesis write_succeeds : forall content s, write_fault content s = None.

Local Abbreviation this_run := (run py_str convert chunker_chunk open_fault write_fault).

(** X9. The output file is to be read line by line: taken as a whole it
    is a JSON document only when there is exactly one chunk (an empty file
    is no JSON, and a second record is extra data after the first). *)
Theorem whole_file_is_json_iff_one_chunk old_file :
  is_Some (json_loads (default [] (out_file (snd (this_run old_file)))))
  <-> length chunks = 1%nat.
Proof.
  rewrite (run_returns py_str convert chunker_chunk open_fault write_fault doc chunks
             convert_returns chunker_returns open_succeeds write_succeeds).
  cbn [snd out_file default]. unfold id.
  destruct chunks as [ | c0 [ | c1 cs ] ].
  - cbn. split; [ intros [v Hv]; discriminate | discriminate ].
  - change (unlines (imap (json_line py_str) [c0]))
      with ((json_dumps (chunk_dict py_str 0 c0) ++ [NEWLINE]) ++ []).
    rewrite app_nil_r, json_loads_one_line. split; [ reflexivity | eauto ].
  - rewrite !imap_cons. unfold unlines. cbn [flat_map].
    unfold json_line at 1 2, compose. rewrite <- !app_assoc. cbn [app].
    rewrite json_loads_two_lines. cbn [length].
    split; [ intros [v Hv]; discriminate | discriminate ].
Qed.
End WholeFile.

(** ** The further statements at the small runs *)


(** The chunker raises: the stale file stays. *)
Lemma early_failure_touches_nothing_chunker :
  chunker_fail_run (Some (lit "stale"))
  = (Raised (PyExc "ValueError"), World (Some (lit "stale")) []).
Proof.
  apply (early_failure_touches_nothing demo_str demo_convert failing_chunker None
           no_write_fault tt (Some (lit "stale")) (PyExc "ValueError")).
  - reflexivity.
  - left. reflexivity.
Defined.


(** The second chunk of the small run has a plain text. *)
Lemma plain_text_verbatim_demo :
  exists rest,
    json_line demo_str 1 demo_chunk1
    = lit "{" ++ [QUOTE] ++ lit "chunk_id" ++ [QUOTE] ++ lit ": " ++ str_nat 1 ++ lit ", "
      ++ [QUOTE] ++ lit "text" ++ [QUOTE] ++ lit ": "
      ++ [QUOTE] ++ text demo_chunk1 ++ [QUOTE] ++ rest.
Proof. apply (plain_text_verbatim demo_str 1 demo_chunk1). reflexivity. Defined.

(** The lines left by the disk that takes one line. *)
Lemma lines_pairwise_distinct_disk_full : NoDup (file_lines (snd disk_full_run)).
Proof.
  apply (lines_pairwise_distinct demo_str demo_convert demo_chunker None full_after_first
           tt demo_chunks eq_refl eq_refl eq_refl None).
Defined.

(** The first text of the small run holds a newline; its line does not. *)
Lemma lines_hold_no_control_character_demo :
  Forall (Forall (fun c => 32 <= c)) (file_lines (snd demo_run)).
Proof.
  apply (lines_hold_no_control_character demo_str demo_convert demo_chunker None
           no_write_fault tt demo_chunks eq_refl eq_refl eq_refl None).
Defined.

(** The small run has two chunks: its file is no JSON document. *)
Lemma whole_file_is_json_iff_one_chunk_demo :
  is_Some (json_loads (default [] (out_file (snd demo_run)))) <-> length demo_chunks = 1%nat.
Proof.
  apply (whole_file_is_json_iff_one_chunk demo_str demo_convert demo_chunker None
           no_write_fault tt demo_chunks eq_refl eq_refl eq_refl (fun _ _ => eq_refl) None).
Defined.

(** The console of the small run ends with the summary line. *)
Lemma summary_only_on_success_demo : fst demo_run = Returned tt.
Proof.
  apply (summary_only_on_success demo_str demo_convert demo_chunker None no_write_fault None
           (CHECK_MARK :: lit " Saved 2 chunks to target/index_chunks.jsonl")).
  - apply list_elem_of_In. vm_compute. right. right. left. reflexivity.
  - reflexivity.
Defined.
